(** * mcp-box: registry search and agent-config adapters

    A shallow embedding of the two pieces of the repository that carry
    logic: the registry manager (src/registry/index.ts) and the base agent
    adapter (src/adapters/base.ts) with the configuration manager's backup
    (src/utils/config.ts) and the path table (src/utils/paths.ts).

    JavaScript values are modelled as follows.
    - A string is a [string] whose characters are UTF-16 code units below
      256 (Latin-1 text).
    - An integer-valued number is a [Z]; a number that may carry a fraction
      (a relevance score, a download threshold) is a [Q], so divisions are
      exact where the program rounds to a double (the quotient of the fuzzy
      score), and integers are exact beyond 2^53, where a double is not.
    - An array is a [list]; an in-place method returns the new content of
      its receiver.
    - A plain object used as a record of own properties is an association
      list in insertion order; reading a property also consults
      [Object.prototype], as the language does.
    - A thrown exception is the [Err] case of a result.
    - The file system is a map from paths to texts with a log of the
      effects performed; reading a file that exists, creating a directory
      and writing a file succeed. *)

From Stdlib Require Import ZArith QArith String Ascii List Lia Permutation Sorted.
From stdpp Require Import gmap strings list pretty.

Local Open Scope string_scope.
Local Open Scope Z_scope.

(** ** JavaScript strings and numbers *)

Module JS.

(** [String.prototype.toLowerCase] on one code unit: A-Z and the Latin-1
    capitals (U+00C0-U+00DE without the multiplication sign) move up by 32. *)
Definition lower_unit (c : ascii) : ascii :=
  let n := nat_of_ascii c in
  if (((65 <=? n) && (n <=? 90)) ||
      ((192 <=? n) && (n <=? 222) && negb (n =? 215)))%nat
  then ascii_of_nat (n + 32) else c.

Fixpoint toLowerCase (s : string) : string :=
  match s with
  | EmptyString => EmptyString
  | String c r => String (lower_unit c) (toLowerCase r)
  end.

(** White space as [trim] and the regular expression class [\s] see it. *)
Definition isWhiteSpace (c : ascii) : bool :=
  let n := nat_of_ascii c in
  ((9 <=? n) && (n <=? 13) || (n =? 32) || (n =? 160))%nat.

Fixpoint trimStart (s : string) : string :=
  match s with
  | EmptyString => EmptyString
  | String c r => if isWhiteSpace c then trimStart r else s
  end.

Fixpoint trimEnd (s : string) : string :=
  match s with
  | EmptyString => EmptyString
  | String c r =>
      match trimEnd r with
      | EmptyString => if isWhiteSpace c then EmptyString else String c EmptyString
      | r' => String c r'
      end
  end.

Definition trim (s : string) : string := trimEnd (trimStart s).

(** Truthiness of a string: the empty string is the only falsy one. *)
Definition truthy_string (s : string) : bool :=
  match s with EmptyString => false | _ => true end.

(** [s.includes(sub)]: [sub] occurs in [s] as a contiguous run. *)
Fixpoint includes (s sub : string) : bool :=
  String.prefix sub s ||
  match s with
  | EmptyString => false
  | String _ r => includes r sub
  end.

(** [s.endsWith(suf)]. *)
Fixpoint endsWith (s suf : string) : bool :=
  String.eqb s suf ||
  match s with
  | EmptyString => false
  | String _ r => endsWith r suf
  end.

(** [s.slice(0, -1)]. *)
Fixpoint dropLast (s : string) : string :=
  match s with
  | EmptyString => EmptyString
  | String c EmptyString => EmptyString
  | String c r => String c (dropLast r)
  end.

(** [s.replace(/[,\s]/g, '')]. *)
Fixpoint stripSeparators (s : string) : string :=
  match s with
  | EmptyString => EmptyString
  | String c r =>
      if Ascii.eqb c "," || isWhiteSpace c then stripSeparators r
      else String c (stripSeparators r)
  end.

(** Value of a digit in radix up to 16. *)
Definition digit_value (c : ascii) : option Z :=
  let n := Z.of_nat (nat_of_ascii c) in
  if (48 <=? n) && (n <=? 57) then Some (n - 48)
  else if (97 <=? n) && (n <=? 102) then Some (n - 87)
  else if (65 <=? n) && (n <=? 70) then Some (n - 55)
  else None.

(** The longest prefix of radix-[R] digits, [None] when there is none. *)
Fixpoint parse_digits (R : Z) (s : string) (acc : option Z) : option Z :=
  match s with
  | EmptyString => acc
  | String c r =>
      match digit_value c with
      | Some d =>
          if d <? R
          then parse_digits R r (Some (match acc with Some a => a * R + d | None => d end))
          else acc
      | None => acc
      end
  end.

(** [parseInt(s)] without a radix argument; [None] stands for NaN. *)
Definition parseInt (s : string) : option Z :=
  let s := trimStart s in
  let '(sign, s) :=
    match s with
    | String "-" r => (-1, r)
    | String "+" r => (1, r)
    | _ => (1, s)
    end in
  let '(R, s) :=
    match s with
    | String "0" (String "x" r) => (16, r)
    | String "0" (String "X" r) => (16, r)
    | _ => (10, s)
    end in
  match parse_digits R s None with
  | Some v => Some (sign * v)
  | None => None
  end.

(** [x || 0] for a number: NaN and zero both give zero. *)
Definition or_zero (o : option Z) : Z :=
  match o with Some v => v | None => 0 end.

(** [a.slice(start, end)] on an array, with the relative indices of the
    language: a negative index counts from the end. *)
Definition slice_index (len i : Z) : Z :=
  if i <? 0 then Z.max (len + i) 0 else Z.min i len.

Definition Array_slice {A} (a : list A) (start stop : Z) : list A :=
  let len := Z.of_nat (length a) in
  let k := slice_index len start in
  let final := slice_index len stop in
  firstn (Z.to_nat (Z.max (final - k) 0)) (skipn (Z.to_nat k) a).

(** [a.sort(cmp)]: the sort is stable; [cmp x y] is the sign of the
    comparator's number, and [Gt] moves [x] behind [y]. *)
Fixpoint sort_insert {A} (cmp : A -> A -> comparison) (x : A) (l : list A) : list A :=
  match l with
  | [] => [x]
  | y :: r =>
      match cmp x y with
      | Gt => y :: sort_insert cmp x r
      | _ => x :: l
      end
  end.

Definition Array_sort {A} (cmp : A -> A -> comparison) (a : list A) : list A :=
  foldr (sort_insert cmp) [] a.

(** Sign of the difference [x - y] of two numbers. *)
Definition sign_of_difference (x y : Q) : comparison := Qcompare x y.

End JS.

(** ** Errors and results *)

(** An exception: its message and, for a file-system error, its code. *)
Record JsError := { message : string; code : option string }.

Definition Error (msg : string) : JsError := {| message := msg; code := None |}.

Inductive Result (A : Type) : Type :=
| Ok (a : A)
| Err (e : JsError).
Arguments Ok {A} a.
Arguments Err {A} e.

(** [Object.prototype]'s property names: reading one of them from a plain
    object that has no own property of that name yields the inherited
    value, a function or the prototype itself, hence a truthy value. *)
Definition Object_prototype_names : list string :=
  [ "constructor"; "__defineGetter__"; "__defineSetter__"; "hasOwnProperty";
    "__lookupGetter__"; "__lookupSetter__"; "isPrototypeOf";
    "propertyIsEnumerable"; "toString"; "valueOf"; "__proto__";
    "toLocaleString" ].

Definition inherited (k : string) : bool :=
  existsb (String.eqb k) Object_prototype_names.

(** ** Shared enumerations (src/types/agents.d.ts, src/types/registry.d.ts) *)

Inductive AgentType :=
| claude | gemini | cursor | vscode | windsurf | cline | visual_studio.

Inductive TransportType := stdio | http | sse.

Inductive ConfigScope := user | project | remote.

Inductive ServerClassification := official | community | reference.

#[global] Instance AgentType_eq_dec : EqDecision AgentType.
Proof. solve_decision. Defined.
#[global] Instance TransportType_eq_dec : EqDecision TransportType.
Proof. solve_decision. Defined.
#[global] Instance ConfigScope_eq_dec : EqDecision ConfigScope.
Proof. solve_decision. Defined.
#[global] Instance ServerClassification_eq_dec : EqDecision ServerClassification.
Proof. solve_decision. Defined.

(** [a.includes(x)] on an array. *)
Definition Array_includes {A} `{EqDecision A} (a : list A) (x : A) : bool :=
  existsb (fun y => bool_decide (y = x)) a.

(** ** The registry manager (src/registry/index.ts) *)

(** A registry entry. The fields the manager never reads (source, URLs,
    install and default configuration, documentation) are left out. *)
Module MCPServer.
Record t := {
  id : string;
  name : string;
  title : string;
  description : string;
  classification : ServerClassification;
  maintainer : string;
  license : option string;
  estWeeklyDownloads : string;
  lastUpdated : string;
  supportedPlatforms : list AgentType;
  transportTypes : list TransportType;
  npmPackage : option string;
  dockerSupport : bool;
  tags : list string;
  category : option string
}.
End MCPServer.

Module RegistryMetadata.
Record t := {
  version : string;
  lastUpdated : string;
  totalServers : Z;
  sources : list string;
  categories : list string;
  tags : list string
}.
End RegistryMetadata.

Module MCPRegistry.
Record t := {
  metadata : RegistryMetadata.t;
  servers : list MCPServer.t
}.
End MCPRegistry.

(** Every field of the filters is optional: [None] is [undefined]. *)
Module SearchFilters.
Record t := {
  query : option string;
  tags : option (list string);
  classification : option (list ServerClassification);
  transportTypes : option (list TransportType);
  supportedPlatforms : option (list AgentType);
  maintainer : option string;
  category : option string;
  license : option string;
  minDownloads : option Q;
  dockerSupport : option bool;
  hasNpmPackage : option bool
}.
End SearchFilters.

(** The sort keys ['relevance' | 'downloads' | 'name' | 'updated']; the
    key ['name'] is spelled [byName] here. *)
Inductive SortBy := relevance | downloads | byName | updated.
Inductive SortOrder := asc | desc.

Module SearchOptions.
Record t := {
  fuzzy : option bool;
  limit : option Z;
  offset : option Z;
  sortBy : option SortBy;
  sortOrder : option SortOrder
}.
End SearchOptions.

Module SearchResult.
Record t := {
  server : MCPServer.t;
  score : Q;
  matchedFields : list string
}.
End SearchResult.

Module SearchResponse.
Record t := {
  results : list SearchResult.t;
  total : Z;
  hasMore : bool;
  filters : SearchFilters.t;
  query : string
}.
End SearchResponse.

(** A tally kept in a plain object by [acc[k] = (acc[k] || 0) + 1]:
    a count, or the string that results when [acc[k]] was an inherited
    property. *)
Inductive Tally := Count (n : Z) | NotACount.

Module RegistryStats.
Record t := {
  totalServers : Z;
  byClassification : list (ServerClassification * Z);
  byTransport : list (TransportType * Z);
  byAgent : list (AgentType * Z);
  byCategory : list (string * Tally);
  mostPopular : list MCPServer.t;
  recentlyUpdated : list MCPServer.t;
  trending : list MCPServer.t
}.
End RegistryStats.

(** What the platform supplies to the registry manager: string collation
    and date parsing ([None] is an invalid date, whose time is NaN). *)
Class Locale := {
  localeCompare : string -> string -> comparison;
  Date_getTime : string -> option Z
}.

(** What one call of a manager method finds outside the process: the
    clock, and the outcome of reading and parsing [servers.json]. The file
    is taken to hold a registry document: the source casts what
    [JSON.parse] returns to [MCPRegistry] without checking it, so a file
    that parses to another value ([{}], [[]], [null]) is loaded there as
    well and makes the methods fail later; such files are outside this
    model. *)
Record Host := {
  clock : Z;
  registryFile : Result MCPRegistry.t
}.

Module Registry.

(** The private fields of [MCPRegistryManager]. *)
Record MCPRegistryManager := {
  registry : option MCPRegistry.t;
  lastLoaded : option Z
}.

(** A method: it runs on the manager's fields and leaves them behind. *)
Definition M (A : Type) : Type :=
  MCPRegistryManager -> Result A * MCPRegistryManager.

Definition throw {A} (e : JsError) : M A := fun st => (Err e, st).

#[global] Instance M_ret : MRet M := fun A a st => (Ok a, st).
#[global] Instance M_bind : MBind M := fun A B k m st =>
  match m st with
  | (Ok a, st') => k a st'
  | (Err e, st') => (Err e, st')
  end.

Definition loadRegistry (h : Host) : M unit :=
  fun st =>
    match registryFile h with
    | Ok r => (Ok tt, {| registry := Some r; lastLoaded := Some (clock h) |})
    | Err e =>
        (Err (Error ("Failed to load MCP registry: " ++ message e)), st)
    end.

Definition ensureLoaded (h : Host) : M unit :=
  fun st =>
    match registry st, lastLoaded st with
    | Some _, Some t =>
        if 5 * 60 * 1000 <? clock h - t then loadRegistry h st else (Ok tt, st)
    | _, _ => loadRegistry h st
    end.

(** The guard [if (!this.registry) throw ...] followed by the read. *)
Definition loaded : M MCPRegistry.t :=
  fun st =>
    match registry st with
    | Some r => (Ok r, st)
    | None => (Err (Error "Registry not loaded"), st)
    end.

Definition getServer (h : Host) (id : string) : M (option MCPServer.t) :=
  ensureLoaded h;;
  r ← loaded;
  mret (find (fun s => String.eqb (MCPServer.id s) id) (MCPRegistry.servers r)).

Definition getAllServers (h : Host) : M (list MCPServer.t) :=
  ensureLoaded h;;
  r ← loaded;
  mret (MCPRegistry.servers r).

Definition parseDownloads (downloadsStr : string) : Z :=
  if negb (JS.truthy_string downloadsStr) || String.eqb downloadsStr "N/A" then 0
  else
    let str := JS.stripSeparators (JS.toLowerCase downloadsStr) in
    if JS.endsWith str "+" then JS.or_zero (JS.parseInt (JS.dropLast str))
    else if JS.endsWith str "k" then JS.or_zero (JS.parseInt (JS.dropLast str)) * 1000
    else if JS.endsWith str "m" then JS.or_zero (JS.parseInt (JS.dropLast str)) * 1000000
    else JS.or_zero (JS.parseInt str).

(** The loop of [fuzzyMatch]: what is left of the pattern, and the score. *)
Fixpoint fuzzyLoop (text pattern : string) (score consecutiveMatches : Z)
  {struct text} : string * Z :=
  match pattern, text with
  | String p prest, String c trest =>
      if Ascii.eqb c p
      then fuzzyLoop trest prest (score + (consecutiveMatches + 1)) (consecutiveMatches + 1)
      else fuzzyLoop trest pattern score 0
  | _, _ => (pattern, score)
  end.

Definition fuzzyMatch (pattern text : string) : Q :=
  match pattern, text with
  | EmptyString, _ => 0%Q
  | _, EmptyString => 0%Q
  | _, _ =>
      match fuzzyLoop text pattern 0 0 with
      | (EmptyString, score) => (score # Pos.of_nat (String.length pattern))%Q
      | _ => 0%Q
      end
  end.

(** [server.tags.some(tag => tag.toLowerCase().includes(queryLower))]. *)
Definition someTagIncludes (server : MCPServer.t) (queryLower : string) : bool :=
  existsb (fun tag => JS.includes (JS.toLowerCase tag) queryLower)
          (MCPServer.tags server).

Definition calculateRelevanceScore
  (server : MCPServer.t) (query : string) (fuzzy : bool) : Q :=
  let queryLower := JS.toLowerCase query in
  let score := 0%Q in
  let score :=
    if JS.includes (JS.toLowerCase (MCPServer.name server)) queryLower
    then (score + 10)%Q else score in
  let score :=
    if JS.includes (JS.toLowerCase (MCPServer.title server)) queryLower
    then (score + 8)%Q else score in
  let score :=
    if JS.includes (JS.toLowerCase (MCPServer.description server)) queryLower
    then (score + 5)%Q else score in
  let score :=
    if JS.includes (JS.toLowerCase (MCPServer.maintainer server)) queryLower
    then (score + 3)%Q else score in
  let score :=
    if someTagIncludes server queryLower then (score + 4)%Q else score in
  let score :=
    if fuzzy && Qeq_bool score 0
    then
      let fuzzyScore :=
        (fuzzyMatch queryLower (JS.toLowerCase (MCPServer.name server)) +
         fuzzyMatch queryLower (JS.toLowerCase (MCPServer.description server)) * (1 # 2))%Q in
      (score + fuzzyScore)%Q
    else score in
  let downloads := parseDownloads (MCPServer.estWeeklyDownloads server) in
  let score :=
    if 10000 <? downloads then (score + 2)%Q
    else if 1000 <? downloads then (score + 1)%Q
    else score in
  let score :=
    if bool_decide (MCPServer.classification server = official)
    then (score + 2)%Q else score in
  score.

Definition getMatchedFields (server : MCPServer.t) (query : string) : list string :=
  let queryLower := JS.toLowerCase query in
  (if JS.includes (JS.toLowerCase (MCPServer.name server)) queryLower
   then ["name"] else []) ++
  (if JS.includes (JS.toLowerCase (MCPServer.title server)) queryLower
   then ["title"] else []) ++
  (if JS.includes (JS.toLowerCase (MCPServer.description server)) queryLower
   then ["description"] else []) ++
  (if JS.includes (JS.toLowerCase (MCPServer.maintainer server)) queryLower
   then ["maintainer"] else []) ++
  (if someTagIncludes server queryLower then ["tags"] else []).

(** The destructuring defaults of [searchServers]. *)
Definition queryOf (f : SearchFilters.t) : string := default "" (SearchFilters.query f).
Definition fuzzyOf (o : SearchOptions.t) : bool := default true (SearchOptions.fuzzy o).
Definition limitOf (o : SearchOptions.t) : Z := default 50 (SearchOptions.limit o).
Definition offsetOf (o : SearchOptions.t) : Z := default 0 (SearchOptions.offset o).
Definition sortByOf (o : SearchOptions.t) : SortBy := default relevance (SearchOptions.sortBy o).
Definition sortOrderOf (o : SearchOptions.t) : SortOrder := default desc (SearchOptions.sortOrder o).

(** The callback of [this.registry.servers.filter]: each test returns
    false as soon as a supplied filter rejects the server. *)
Definition matchesFilters (f : SearchFilters.t) (server : MCPServer.t) : bool :=
  let tags := default [] (SearchFilters.tags f) in
  let classification := default [] (SearchFilters.classification f) in
  let transportTypes := default [] (SearchFilters.transportTypes f) in
  let supportedPlatforms := default [] (SearchFilters.supportedPlatforms f) in
  if (0 <? Z.of_nat (length classification)) &&
     negb (Array_includes classification (MCPServer.classification server))
  then false
  else if (0 <? Z.of_nat (length transportTypes)) &&
     negb (existsb (fun t => Array_includes (MCPServer.transportTypes server) t) transportTypes)
  then false
  else if (0 <? Z.of_nat (length supportedPlatforms)) &&
     negb (existsb (fun p => Array_includes (MCPServer.supportedPlatforms server) p) supportedPlatforms)
  then false
  else if (0 <? Z.of_nat (length tags)) &&
     negb (existsb (fun t => Array_includes (MCPServer.tags server) t) tags)
  then false
  else if
     match SearchFilters.maintainer f with
     | Some m =>
         JS.truthy_string m &&
         negb (JS.includes (JS.toLowerCase (MCPServer.maintainer server)) (JS.toLowerCase m))
     | None => false
     end
  then false
  else if
     match SearchFilters.category f with
     | Some c => JS.truthy_string c && negb (bool_decide (MCPServer.category server = Some c))
     | None => false
     end
  then false
  else if
     match SearchFilters.license f with
     | Some l => JS.truthy_string l && negb (bool_decide (MCPServer.license server = Some l))
     | None => false
     end
  then false
  else if
     match SearchFilters.dockerSupport f with
     | Some d => negb (bool_decide (MCPServer.dockerSupport server = d))
     | None => false
     end
  then false
  else if
     match SearchFilters.hasNpmPackage f with
     | Some b =>
         negb (bool_decide
                 (match MCPServer.npmPackage server with
                  | Some p => JS.truthy_string p
                  | None => false
                  end = b))
     | None => false
     end
  then false
  else if
     match SearchFilters.minDownloads f with
     | Some m =>
         negb (Qle_bool m (inject_Z (parseDownloads (MCPServer.estWeeklyDownloads server))))
     | None => false
     end
  then false
  else true.

Definition filteredServers (f : SearchFilters.t) (servers : list MCPServer.t)
  : list MCPServer.t :=
  List.filter (matchesFilters f) servers.

(** "Search and score results": scored and kept when the score is
    positive for a query that is not blank, all with score 1 otherwise. *)
Definition scoredResults (f : SearchFilters.t) (o : SearchOptions.t)
  (candidates : list MCPServer.t) : list SearchResult.t :=
  let query := queryOf f in
  if JS.truthy_string (JS.trim query)
  then
    List.filter (fun result => negb (Qle_bool (SearchResult.score result) 0))
      (map (fun server =>
              {| SearchResult.server := server;
                 SearchResult.score := calculateRelevanceScore server query (fuzzyOf o);
                 SearchResult.matchedFields := getMatchedFields server query |})
           candidates)
  else
    map (fun server =>
           {| SearchResult.server := server;
              SearchResult.score := 1%Q;
              SearchResult.matchedFields := [] |})
        candidates.

Section WithLocale.
Context {L : Locale}.

(** The comparator handed to [results.sort], as the sign of its number;
    a NaN (an invalid date) counts as zero. *)
Definition compareResults (sortBy : SortBy) (sortOrder : SortOrder)
  (a b : SearchResult.t) : comparison :=
  match sortBy with
  | relevance =>
      match sortOrder with
      | desc => JS.sign_of_difference (SearchResult.score b) (SearchResult.score a)
      | asc => JS.sign_of_difference (SearchResult.score a) (SearchResult.score b)
      end
  | downloads =>
      let aDownloads := parseDownloads (MCPServer.estWeeklyDownloads (SearchResult.server a)) in
      let bDownloads := parseDownloads (MCPServer.estWeeklyDownloads (SearchResult.server b)) in
      match sortOrder with
      | desc => Z.compare bDownloads aDownloads
      | asc => Z.compare aDownloads bDownloads
      end
  | byName =>
      let aName := JS.toLowerCase (MCPServer.name (SearchResult.server a)) in
      let bName := JS.toLowerCase (MCPServer.name (SearchResult.server b)) in
      match sortOrder with
      | desc => localeCompare bName aName
      | asc => localeCompare aName bName
      end
  | updated =>
      match Date_getTime (MCPServer.lastUpdated (SearchResult.server a)),
            Date_getTime (MCPServer.lastUpdated (SearchResult.server b)) with
      | Some aDate, Some bDate =>
          match sortOrder with
          | desc => Z.compare bDate aDate
          | asc => Z.compare aDate bDate
          end
      | _, _ => Eq
      end
  end.

(** The matches, scored and sorted, before pagination. *)
Definition sortedResults (f : SearchFilters.t) (o : SearchOptions.t)
  (servers : list MCPServer.t) : list SearchResult.t :=
  JS.Array_sort (compareResults (sortByOf o) (sortOrderOf o))
    (scoredResults f o (filteredServers f servers)).

(** The body of [searchServers] once the registry is at hand. *)
Definition search (f : SearchFilters.t) (o : SearchOptions.t)
  (servers : list MCPServer.t) : SearchResponse.t :=
  let results := sortedResults f o servers in
  let total := Z.of_nat (length results) in
  let paginatedResults :=
    JS.Array_slice results (offsetOf o) (offsetOf o + limitOf o) in
  let hasMore := offsetOf o + limitOf o <? total in
  {| SearchResponse.results := paginatedResults;
     SearchResponse.total := total;
     SearchResponse.hasMore := hasMore;
     SearchResponse.filters := f;
     SearchResponse.query := JS.trim (queryOf f) |}.

Definition searchServers (h : Host) (f : SearchFilters.t) (o : SearchOptions.t)
  : M SearchResponse.t :=
  ensureLoaded h;;
  r ← loaded;
  mret (search f o (MCPRegistry.servers r)).

Definition getCategories (h : Host) : M (list string) :=
  ensureLoaded h;;
  r ← loaded;
  mret (RegistryMetadata.categories (MCPRegistry.metadata r)).

Definition getTags (h : Host) : M (list string) :=
  ensureLoaded h;;
  r ← loaded;
  mret (RegistryMetadata.tags (MCPRegistry.metadata r)).

Definition getServersByCategory (h : Host) (category : string) : M (list MCPServer.t) :=
  ensureLoaded h;;
  r ← loaded;
  mret (List.filter
          (fun server => bool_decide (MCPServer.category server = Some category))
          (MCPRegistry.servers r)).

Definition getServersByTag (h : Host) (tag : string) : M (list MCPServer.t) :=
  ensureLoaded h;;
  r ← loaded;
  mret (List.filter
          (fun server => Array_includes (MCPServer.tags server) tag)
          (MCPRegistry.servers r)).

(** [acc[k] = (acc[k] || 0) + 1] for a key of an enumeration, none of
    which is a property name of [Object.prototype]. *)
Fixpoint bump {K} `{EqDecision K} (k : K) (acc : list (K * Z)) : list (K * Z) :=
  match acc with
  | [] => [(k, 1)]
  | (k', n) :: r =>
      if bool_decide (k' = k) then (k', n + 1) :: r
      else (k', n) :: bump k r
  end.

(** The same for a free-form key: an inherited property is not a number,
    and [__proto__] never becomes an own property by assignment. *)
Fixpoint bumpTally (k : string) (acc : list (string * Tally)) : list (string * Tally) :=
  match acc with
  | [] =>
      if String.eqb k "__proto__" then []
      else if inherited k then [(k, NotACount)]
      else [(k, Count 1)]
  | (k', v) :: r =>
      if String.eqb k' k
      then (k', match v with Count n => Count (n + 1) | NotACount => NotACount end) :: r
      else (k', v) :: bumpTally k r
  end.

Definition getStats (h : Host) : M RegistryStats.t :=
  ensureLoaded h;;
  r ← loaded;
  let servers := MCPRegistry.servers r in
  let byClassification :=
    fold_left (fun acc server => bump (MCPServer.classification server) acc) servers [] in
  let byTransport :=
    fold_left (fun acc server =>
                 fold_left (fun acc transport => bump transport acc)
                           (MCPServer.transportTypes server) acc) servers [] in
  let byAgent :=
    fold_left (fun acc server =>
                 fold_left (fun acc platform => bump platform acc)
                           (MCPServer.supportedPlatforms server) acc) servers [] in
  let byCategory :=
    fold_left (fun acc server =>
                 match MCPServer.category server with
                 | Some c => if JS.truthy_string c then bumpTally c acc else acc
                 | None => acc
                 end) servers [] in
  (* [...servers].sort(...): the copy is sorted, not the registry's array *)
  let mostPopular :=
    JS.Array_slice
      (JS.Array_sort
         (fun a b => Z.compare (parseDownloads (MCPServer.estWeeklyDownloads b))
                               (parseDownloads (MCPServer.estWeeklyDownloads a)))
         servers) 0 10 in
  let recentlyUpdated :=
    JS.Array_slice
      (JS.Array_sort
         (fun a b =>
            match Date_getTime (MCPServer.lastUpdated b),
                  Date_getTime (MCPServer.lastUpdated a) with
            | Some bDate, Some aDate => Z.compare bDate aDate
            | _, _ => Eq
            end)
         servers) 0 10 in
  mret {| RegistryStats.totalServers := Z.of_nat (length servers);
          RegistryStats.byClassification := byClassification;
          RegistryStats.byTransport := byTransport;
          RegistryStats.byAgent := byAgent;
          RegistryStats.byCategory := byCategory;
          RegistryStats.mostPopular := mostPopular;
          RegistryStats.recentlyUpdated := recentlyUpdated;
          RegistryStats.trending := JS.Array_slice mostPopular 0 5 |}.

Definition getMetadata (h : Host) : M RegistryMetadata.t :=
  ensureLoaded h;;
  r ← loaded;
  mret (MCPRegistry.metadata r).

(** The read operations of the manager, as one type. *)
Inductive ReadOperation :=
| OpGetServer (id : string)
| OpGetAllServers
| OpSearchServers (f : SearchFilters.t) (o : SearchOptions.t)
| OpGetServersByCategory (category : string)
| OpGetServersByTag (tag : string)
| OpGetStats
| OpGetMetadata.

(** The manager's fields after a read operation; its result is dropped. *)
Definition after (h : Host) (op : ReadOperation) (st : MCPRegistryManager)
  : MCPRegistryManager :=
  match op with
  | OpGetServer id => snd (getServer h id st)
  | OpGetAllServers => snd (getAllServers h st)
  | OpSearchServers f o => snd (searchServers h f o st)
  | OpGetServersByCategory c => snd (getServersByCategory h c st)
  | OpGetServersByTag t => snd (getServersByTag h t st)
  | OpGetStats => snd (getStats h st)
  | OpGetMetadata => snd (getMetadata h st)
  end.


(** The exception a read operation ends with, if any. *)
Definition thrown {A} (outcome : Result A) : option JsError :=
  match outcome with
  | Ok _ => None
  | Err e => Some e
  end.

Definition errorOf (h : Host) (op : ReadOperation) (st : MCPRegistryManager)
  : option JsError :=
  match op with
  | OpGetServer id => thrown (fst (getServer h id st))
  | OpGetAllServers => thrown (fst (getAllServers h st))
  | OpSearchServers f o => thrown (fst (searchServers h f o st))
  | OpGetServersByCategory c => thrown (fst (getServersByCategory h c st))
  | OpGetServersByTag t => thrown (fst (getServersByTag h t st))
  | OpGetStats => thrown (fst (getStats h st))
  | OpGetMetadata => thrown (fst (getMetadata h st))
  end.

(** [stats.byClassification[k] || 0], as the init command reads a tally. *)
Definition tallyOf {K} `{EqDecision K} (k : K) (acc : list (K * Z)) : Z :=
  match List.find (fun kv => bool_decide (fst kv = k)) acc with
  | Some (_, n) => n
  | None => 0
  end.

End WithLocale.

End Registry.

(** ** JSON documents and plain objects *)

(** A value as [JSON.parse] builds it. An object is the list of its own
    properties in insertion order. The schemas of this program hold no
    numeric field, so integers stand for all numbers. *)
#[local] Set Warnings "-register-all".
Inductive json :=
| JNull
| JBool (b : bool)
| JNum (n : Z)
| JStr (s : string)
| JArr (items : list json)
| JObj (props : list (string * json)).

(** The own properties of a [Record<string, any>]. *)
Abbreviation Props := (list (string * json)).

Definition truthy (v : json) : bool :=
  match v with
  | JNull => false
  | JBool b => b
  | JNum n => negb (n =? 0)
  | JStr s => JS.truthy_string s
  | JArr _ | JObj _ => true
  end.

Fixpoint own_get {V} (k : string) (o : list (string * V)) : option V :=
  match o with
  | [] => None
  | (k', v) :: r => if String.eqb k' k then Some v else own_get k r
  end.

(** Writing an own property keeps the position of an existing key and
    appends a new one. (The language enumerates keys that are array
    indices, such as [0] or [12], before all others and in numeric order;
    the order of such keys is not modelled, lookups do not depend on it.) *)
Fixpoint own_set {V} (k : string) (v : V) (o : list (string * V)) : list (string * V) :=
  match o with
  | [] => [(k, v)]
  | (k', v') :: r =>
      if String.eqb k' k then (k', v) :: r else (k', v') :: own_set k v r
  end.

Definition own_delete {V} (k : string) (o : list (string * V)) : list (string * V) :=
  List.filter (fun kv => negb (String.eqb (fst kv) k)) o.

(** Truthiness of [o[k]] for a plain object [o]: the own property when
    there is one, the property inherited from [Object.prototype] otherwise. *)
Definition prop_truthy (o : Props) (k : string) : bool :=
  match own_get k o with
  | Some v => truthy v
  | None => inherited k
  end.

(** [o[k] = v] on a plain object: an own property is updated or created,
    except that assigning [__proto__] without an own property of that name
    runs the inherited setter and creates none. (The setter makes the
    value the prototype of the object, which is not modelled: in the source
    the properties of that value then show in lookups and in the
    enumeration of the schema check. What is proved about adding a server
    leaves the identifier [__proto__] out.) *)
Definition assign (o : Props) (k : string) (v : json) : Props :=
  match own_get k o with
  | Some _ => own_set k v o
  | None => if String.eqb k "__proto__" then o else own_set k v o
  end.

(** An own property of a value that is an object. *)
Definition property (v : json) (k : string) : option json :=
  match v with
  | JObj o => own_get k o
  | _ => None
  end.

(** [config.key || {}] read as a record of servers. *)
Definition props_or_empty (config : json) (key : string) : Props :=
  match config with
  | JObj o =>
      match own_get key o with
      | Some (JObj servers) => servers
      | _ => []
      end
  | _ => []
  end.

(** ** Validation results (src/types/agents.d.ts) and schemas *)

Module ZodIssue.
Record t := { path : list string; message : string; code : string }.
End ZodIssue.

(** A schema of the validation library: whether [parse] returns, and the
    issues of the error it throws otherwise. *)
Module ZodSchema.
Record t := { accepts : json -> bool; issues : json -> list ZodIssue.t }.
End ZodSchema.

Module ValidationError.
Record t := { path : string; message : string; code : string; severity : string }.
End ValidationError.

Module ValidationResult.
Record t := {
  valid : bool;
  errors : list ValidationError.t;
  warnings : list ValidationError.t
}.
End ValidationResult.

(** The server description handed to [addServer]: [BaseServerConfig] or
    [HttpServerConfig]; [url] is present exactly when ['url' in config]. *)
Module ServerConfig.
Record t := {
  command : option string;
  args : option (list string);
  env : option (list (string * string));
  transport : option TransportType;
  url : option string
}.
End ServerConfig.

(** The outcome of [createBackup] (src/types/config.d.ts), without the
    elapsed time. *)
Module BackupResult.
Record t := {
  success : bool;
  backupId : string;
  filePath : string;
  size : Z;
  checksum : string;
  error : option string
}.
End BackupResult.

(** The outcome of [restoreBackup], without the elapsed time;
    [configPath] is whatever the metadata hold under that name. *)
Module RestoreResult.
Record t := {
  success : bool;
  backupId : string;
  configPath : option json;
  error : option string;
  changesDetected : bool
}.
End RestoreResult.

(** ** The file system and the platform *)

Inductive Event :=
| Mkdir (dir : string)
| WriteFile (path content : string).

(** The files by path, and the effects performed so far, oldest first. *)
Record FileSystem := {
  files : gmap string string;
  log : list Event
}.

(** What the platform supplies to the adapters. [JSON_stringify2] is
    [JSON.stringify(v, null, 2)]; [URL_ok] tells whether [new URL(s)]
    returns; [resolvePlatformPath] expands the home directory and the
    environment variables of a path; [toISOString_now] is the clock. *)
Class Node := {
  JSON_parse : string -> option json;
  JSON_stringify : json -> string;
  JSON_stringify2 : json -> string;
  path_dirname : string -> string;
  path_join : string -> string -> string;
  resolvePlatformPath : string -> string;
  IS_WINDOWS : bool;
  IS_MACOS : bool;
  URL_ok : string -> bool;
  toISOString_now : string
}.

Module Adapters.

(** An asynchronous method: it runs on the file system and may throw. *)
Definition IO (A : Type) : Type := FileSystem -> Result A * FileSystem.

Definition throw {A} (e : JsError) : IO A := fun fs => (Err e, fs).

#[global] Instance IO_ret : MRet IO := fun A a fs => (Ok a, fs).
#[global] Instance IO_bind : MBind IO := fun A B k m fs =>
  match m fs with
  | (Ok a, fs') => k a fs'
  | (Err e, fs') => (Err e, fs')
  end.

(** [try { body } catch (error) { handler(error) }]. *)
Definition try_catch {A} (body : IO A) (handler : JsError -> IO A) : IO A :=
  fun fs =>
    match body fs with
    | (Ok a, fs') => (Ok a, fs')
    | (Err e, fs') => handler e fs'
    end.

Definition pathExists (p : string) : IO bool :=
  fun fs => (Ok (bool_decide (is_Some (files fs !! p))), fs).

Definition readFile (p : string) : IO string :=
  fun fs =>
    match files fs !! p with
    | Some content => (Ok content, fs)
    | None =>
        (Err {| message := "ENOENT: no such file or directory, open '" ++ p ++ "'";
                code := Some "ENOENT" |}, fs)
    end.

Definition writeFile (p content : string) : IO unit :=
  fun fs =>
    (Ok tt, {| files := <[p := content]> (files fs);
               log := log fs ++ [WriteFile p content] |}).

Definition ensureDir (dir : string) : IO unit :=
  fun fs => (Ok tt, {| files := files fs; log := log fs ++ [Mkdir dir] |}).

(** *** src/utils/paths.ts *)

Definition agentName (agent : AgentType) : string :=
  match agent with
  | claude => "claude"
  | gemini => "gemini"
  | cursor => "cursor"
  | vscode => "vscode"
  | windsurf => "windsurf"
  | cline => "cline"
  | visual_studio => "visual-studio"
  end.

Definition scopeName (scope : ConfigScope) : string :=
  match scope with
  | user => "user"
  | project => "project"
  | remote => "remote"
  end.

Module AgentPaths.
Record t := {
  user : string;
  project : option string;
  alternative : option (list string)
}.
End AgentPaths.

Section WithNode.
Context {N : Node}.

Definition getAgentConfigPaths (agent : AgentType) : AgentPaths.t :=
  match agent with
  | claude =>
      {| AgentPaths.user := resolvePlatformPath "~/.claude/settings.json";
         AgentPaths.project := Some "./.claude/settings.json";
         AgentPaths.alternative := None |}
  | gemini =>
      {| AgentPaths.user := resolvePlatformPath "~/.gemini/settings.json";
         AgentPaths.project := Some "./.gemini/settings.json";
         AgentPaths.alternative := None |}
  | cursor =>
      {| AgentPaths.user := resolvePlatformPath "~/.cursor/mcp.json";
         AgentPaths.project := Some "./.cursor/mcp.json";
         AgentPaths.alternative := Some [resolvePlatformPath "~/.cursor-ide/mcp.json"] |}
  | vscode =>
      if IS_WINDOWS then
        {| AgentPaths.user := resolvePlatformPath "%APPDATA%/Code/User/mcp.json";
           AgentPaths.project := Some "./.vscode/mcp.json";
           AgentPaths.alternative := Some [resolvePlatformPath "%USERPROFILE%/.vscode/mcp.json"] |}
      else if IS_MACOS then
        {| AgentPaths.user := resolvePlatformPath "~/Library/Application Support/Code/User/mcp.json";
           AgentPaths.project := Some "./.vscode/mcp.json";
           AgentPaths.alternative := Some [resolvePlatformPath "~/.vscode/mcp.json"] |}
      else
        {| AgentPaths.user := resolvePlatformPath "~/.config/Code/User/mcp.json";
           AgentPaths.project := Some "./.vscode/mcp.json";
           AgentPaths.alternative := Some [resolvePlatformPath "~/.vscode/mcp.json"] |}
  | windsurf =>
      {| AgentPaths.user := resolvePlatformPath "~/.codeium/windsurf/mcp_config.json";
         AgentPaths.project := Some "./.windsurf/mcp_config.json";
         AgentPaths.alternative := None |}
  | cline =>
      {| AgentPaths.user := resolvePlatformPath "~/.cline/mcp.json";
         AgentPaths.project := Some "./.cline/mcp.json";
         AgentPaths.alternative := None |}
  | visual_studio =>
      if IS_WINDOWS then
        {| AgentPaths.user := resolvePlatformPath "%APPDATA%/Microsoft/VisualStudio/mcp.json";
           AgentPaths.project := Some "./.vs/mcp.json";
           AgentPaths.alternative := None |}
      else
        {| AgentPaths.user := resolvePlatformPath "~/.visualstudio/mcp.json";
           AgentPaths.project := Some "./.vs/mcp.json";
           AgentPaths.alternative := None |}
  end.

(** [paths.project || paths.user]: an empty string is falsy too. *)
Definition getAgentConfigPath (agent : AgentType) (scope : ConfigScope) : string :=
  let paths := getAgentConfigPaths agent in
  match scope with
  | project =>
      match AgentPaths.project paths with
      | Some p => if JS.truthy_string p then p else AgentPaths.user paths
      | None => AgentPaths.user paths
      end
  | _ => AgentPaths.user paths
  end.

(** The places [findConfigFile] looks at, in order. *)
Definition checkPaths (agent : AgentType) (scope : ConfigScope) : list string :=
  let paths := getAgentConfigPaths agent in
  match scope with
  | project =>
      List.filter JS.truthy_string
        (match AgentPaths.project paths with Some p => [p] | None => [] end
         ++ [AgentPaths.user paths])
  | _ => AgentPaths.user paths :: default [] (AgentPaths.alternative paths)
  end.

Fixpoint firstExisting (candidates : list string) : IO (option string) :=
  match candidates with
  | [] => mret None
  | configPath :: rest =>
      found ← pathExists configPath;
      if (found : bool) then mret (Some configPath) else firstExisting rest
  end.

Definition findConfigFile (agent : AgentType) (scope : ConfigScope) : IO (option string) :=
  firstExisting (checkPaths agent scope).

(** *** src/adapters/base.ts *)

(** The abstract members of [BaseAgentAdapter], and [validate], which a
    subclass may override. *)
Record AgentAdapter := {
  name : AgentType;
  getConfigSchema : ZodSchema.t;
  transformServerConfig : string -> ServerConfig.t -> TransportType -> json;
  extractServers : json -> Props;
  createConfigWithServers : Props -> json;
  validate : json -> ValidationResult.t
}.

(** [BaseAgentAdapter.validate]: the schema decides. *)
Definition BaseAgentAdapter_validate (schema : ZodSchema.t) (config : json)
  : ValidationResult.t :=
  if ZodSchema.accepts schema config
  then {| ValidationResult.valid := true;
          ValidationResult.errors := [];
          ValidationResult.warnings := [] |}
  else {| ValidationResult.valid := false;
          ValidationResult.errors :=
            map (fun err =>
                   {| ValidationError.path := String.concat "." (ZodIssue.path err);
                      ValidationError.message := ZodIssue.message err;
                      ValidationError.code := ZodIssue.code err;
                      ValidationError.severity := "error" |})
                (ZodSchema.issues schema config);
          ValidationResult.warnings := [] |}.

Definition getConfigPath (a : AgentAdapter) (scope : ConfigScope) : string :=
  getAgentConfigPath (name a) scope.

(** [Invalid configuration: ...] with the messages joined by a comma. *)
Definition invalidConfiguration (r : ValidationResult.t) : JsError :=
  Error ("Invalid configuration: " ++
         String.concat ", " (map ValidationError.message (ValidationResult.errors r))).

(** [read]. The message of the syntax error that [JSON.parse] throws is
    the platform's; a fixed text stands for it. Reading an existing file
    and writing a file do not fail in this model. *)
Definition read (a : AgentAdapter) (scope : ConfigScope) : IO json :=
  configPath ← findConfigFile (name a) scope;
  match configPath with
  | None => mret (createConfigWithServers a [])
  | Some configPath =>
      try_catch
        (configContent ← readFile configPath;
         if negb (JS.truthy_string (JS.trim configContent))
         then mret (createConfigWithServers a [])
         else
           match JSON_parse configContent with
           | None => throw (Error "Unexpected token in JSON")
           | Some config =>
               let validationResult := validate a config in
               if negb (ValidationResult.valid validationResult)
               then throw (invalidConfiguration validationResult)
               else mret config
           end)
        (fun error =>
           if bool_decide (code error = Some "ENOENT")
           then mret (createConfigWithServers a [])
           else throw (Error ("Failed to read configuration: " ++ message error)))
  end.

Definition write (a : AgentAdapter) (config : json) (scope : ConfigScope) : IO unit :=
  let configPath := getConfigPath a scope in
  try_catch
    (let validationResult := validate a config in
     if negb (ValidationResult.valid validationResult)
     then throw (invalidConfiguration validationResult)
     else
       ensureDir (path_dirname configPath);;
       writeFile configPath (JSON_stringify2 config))
    (fun error =>
       throw (Error ("Failed to write configuration: " ++ message error))).

Definition addServer (a : AgentAdapter) (serverId : string)
  (serverConfig : ServerConfig.t) (scope : ConfigScope) : IO unit :=
  try_catch
    (config ← read a scope;
     let servers := extractServers a config in
     let transport := default stdio (ServerConfig.transport serverConfig) in
     let transformedConfig := transformServerConfig a serverId serverConfig transport in
     let servers := assign servers serverId transformedConfig in
     let newConfig := createConfigWithServers a servers in
     write a newConfig scope)
    (fun error =>
       throw (Error ("Failed to add server " ++ serverId ++ ": " ++ message error))).

Definition removeServer (a : AgentAdapter) (serverId : string)
  (scope : ConfigScope) : IO unit :=
  try_catch
    (config ← read a scope;
     let servers := extractServers a config in
     if prop_truthy servers serverId
     then
       let servers := own_delete serverId servers in
       let newConfig := createConfigWithServers a servers in
       write a newConfig scope
     else mret tt)
    (fun error =>
       throw (Error ("Failed to remove server " ++ serverId ++ ": " ++ message error))).

Definition updateServer (a : AgentAdapter) (serverId : string)
  (serverConfig : ServerConfig.t) (scope : ConfigScope) : IO unit :=
  addServer a serverId serverConfig scope.

(** The loop of [mergeConfig] over [Object.entries(sourceServers)]. *)
Definition mergeServers (currentServers sourceServers : Props) (overwrite : bool) : Props :=
  fold_left
    (fun mergedServers entry =>
       let '(serverId, serverConfig) := entry in
       if negb (prop_truthy mergedServers serverId) || overwrite
       then assign mergedServers serverId serverConfig
       else mergedServers)
    sourceServers currentServers.

Definition mergeConfig (a : AgentAdapter) (sourceConfig : json)
  (scope : ConfigScope) (overwrite : bool) : IO unit :=
  try_catch
    (currentConfig ← read a scope;
     let currentServers := extractServers a currentConfig in
     let sourceServers := extractServers a sourceConfig in
     let mergedServers := mergeServers currentServers sourceServers overwrite in
     let newConfig := createConfigWithServers a mergedServers in
     write a newConfig scope)
    (fun error =>
       throw (Error ("Failed to merge configuration: " ++ message error))).

(** The operations that rewrite an agent's configuration file. *)
Inductive DestructiveOperation :=
| OpAddServer (serverId : string) (serverConfig : ServerConfig.t)
| OpRemoveServer (serverId : string)
| OpUpdateServer (serverId : string) (serverConfig : ServerConfig.t)
| OpMergeConfig (sourceConfig : json) (overwrite : bool).

Definition perform (a : AgentAdapter) (op : DestructiveOperation)
  (scope : ConfigScope) : IO unit :=
  match op with
  | OpAddServer serverId serverConfig => addServer a serverId serverConfig scope
  | OpRemoveServer serverId => removeServer a serverId scope
  | OpUpdateServer serverId serverConfig => updateServer a serverId serverConfig scope
  | OpMergeConfig sourceConfig overwrite => mergeConfig a sourceConfig scope overwrite
  end.

(** *** src/utils/paths.ts and src/utils/config.ts: backups *)

Definition getMCPBoxDataDir : string :=
  if IS_WINDOWS then resolvePlatformPath "%LOCALAPPDATA%/mcp-box"
  else if IS_MACOS then resolvePlatformPath "~/Library/Application Support/mcp-box"
  else resolvePlatformPath "~/.local/share/mcp-box".

Definition getBackupDir : string := path_join getMCPBoxDataDir "backups".

(** The characters the first replacement of [createSafeFilename] turns
    into an underscore (angle brackets, colon, double quote, slash,
    backslash, bar, question mark, star), by code. *)
Definition unsafeInFilename (c : ascii) : bool :=
  existsb (Nat.eqb (nat_of_ascii c)) [60; 62; 58; 34; 47; 92; 124; 63; 42]%nat.

Definition underscore : ascii := "_"%char.

(** [replace(/\s+/g, '_')]: a run of white space becomes one underscore;
    [inRun] tells that the previous character was white space. *)
Fixpoint collapseWhiteSpace (inRun : bool) (s : string) : string :=
  match s with
  | EmptyString => EmptyString
  | String c r =>
      if JS.isWhiteSpace c
      then (if inRun then collapseWhiteSpace true r
            else String underscore (collapseWhiteSpace true r))
      else String c (collapseWhiteSpace false r)
  end.

(** [replace(/_+/g, '_')]. *)
Fixpoint collapseUnderscores (inRun : bool) (s : string) : string :=
  match s with
  | EmptyString => EmptyString
  | String c r =>
      if Ascii.eqb c underscore
      then (if inRun then collapseUnderscores true r
            else String underscore (collapseUnderscores true r))
      else String c (collapseUnderscores false r)
  end.

Fixpoint mapUnits (f : ascii -> ascii) (s : string) : string :=
  match s with
  | EmptyString => EmptyString
  | String c r => String (f c) (mapUnits f r)
  end.

(** [replace(/^_|_$/g, '')]: one underscore goes at each end. *)
Definition stripEdgeUnderscores (s : string) : string :=
  let s := match s with
           | String c r => if Ascii.eqb c underscore then r else s
           | EmptyString => s
           end in
  if JS.endsWith s "_" then JS.dropLast s else s.

Definition createSafeFilename (input : string) : string :=
  stripEdgeUnderscores
    (collapseUnderscores false
       (collapseWhiteSpace false
          (mapUnits (fun c => if unsafeInFilename c then underscore else c) input))).

(** [ToInt32]: the value wrapped into the signed 32-bit range. *)
Definition to_int32 (z : Z) : Z := (z + 2 ^ 31) mod 2 ^ 32 - 2 ^ 31.

Definition hexDigit (d : Z) : ascii :=
  ascii_of_nat (Z.to_nat (if d <? 10 then 48 + d else 87 + d)).

(** [n.toString(16)] for [0 <= n < 16 ^ fuel]. *)
Fixpoint toHex (fuel : nat) (n : Z) (acc : string) : string :=
  match fuel with
  | O => acc
  | S fuel' =>
      let acc := String (hexDigit (n mod 16)) acc in
      if n / 16 =? 0 then acc else toHex fuel' (n / 16) acc
  end.

(** The loop of [calculateChecksum] from a given hash. *)
Fixpoint checksumLoop (content : string) (hash : Z) : Z :=
  match content with
  | EmptyString => hash
  | String c r =>
      let char := Z.of_nat (nat_of_ascii c) in
      let hash := to_int32 (hash * 32) - hash + char in
      checksumLoop r (to_int32 hash)
  end.

Definition calculateChecksum (content : string) : string :=
  toHex 8 (Z.abs (checksumLoop content 0)) EmptyString.

Definition loadAgentConfig (agent : AgentType) (scope : ConfigScope) : IO json :=
  configPath ← findConfigFile agent scope;
  match configPath with
  | None =>
      throw (Error ("Configuration file not found for " ++ agentName agent ++
                    " (scope: " ++ scopeName scope ++ ")"))
  | Some configPath =>
      try_catch
        (configContent ← readFile configPath;
         match JSON_parse configContent with
         | Some config => mret config
         | None => throw (Error "Unexpected token in JSON")
         end)
        (fun error =>
           throw (Error ("Failed to load " ++ agentName agent ++
                         " configuration: " ++ message error)))
  end.

(** The [BackupMetadata] of a snapshot, as the object that is serialized. *)
Definition backupMetadata (backupId : string) (agent : AgentType)
  (scope : ConfigScope) (configPath : string) (config : json) : json :=
  JObj [ ("id", JStr backupId);
         ("agent", JStr (agentName agent));
         ("scope", JStr (scopeName scope));
         ("configPath", JStr configPath);
         ("timestamp", JStr toISOString_now);
         ("checksum", JStr (calculateChecksum (JSON_stringify config)));
         ("size", JNum (Z.of_nat (String.length (JSON_stringify config))));
         ("compressed", JBool false);
         ("encrypted", JBool false);
         ("version", JStr "1.0.0") ].

Definition backupData (metadata config : json) : json :=
  JObj [ ("metadata", metadata); ("config", config) ].

(** [timestamp.replace(/[:.]/g, '-')]. *)
Definition dashed (s : string) : string :=
  mapUnits (fun c => if Ascii.eqb c ":" || Ascii.eqb c "." then "-"%char else c) s.

Definition backupIdOf (agent : AgentType) (scope : ConfigScope) : string :=
  agentName agent ++ "-" ++ scopeName scope ++ "-" ++ dashed toISOString_now.

Definition backupPathOf (agent : AgentType) (scope : ConfigScope) : string :=
  path_join getBackupDir (createSafeFilename (backupIdOf agent scope) ++ ".json").

(** [createBackup] never throws: a failure is reported in the result. *)
Definition createBackup (agent : AgentType) (scope : ConfigScope) : IO BackupResult.t :=
  try_catch
    (configPath ← findConfigFile agent scope;
     match configPath with
     | None =>
         throw (Error ("Configuration file not found for " ++ agentName agent ++
                       " (scope: " ++ scopeName scope ++ ")"))
     | Some configPath =>
         config ← loadAgentConfig agent scope;
         let backupId := backupIdOf agent scope in
         let backupPath := backupPathOf agent scope in
         ensureDir getBackupDir;;
         let metadata := backupMetadata backupId agent scope configPath config in
         let data := backupData metadata config in
         writeFile backupPath (JSON_stringify2 data);;
         mret {| BackupResult.success := true;
                 BackupResult.backupId := backupId;
                 BackupResult.filePath := backupPath;
                 BackupResult.size := Z.of_nat (String.length (JSON_stringify data));
                 BackupResult.checksum := calculateChecksum (JSON_stringify config);
                 BackupResult.error := None |}
     end)
    (fun error =>
       mret {| BackupResult.success := false;
               BackupResult.backupId := "";
               BackupResult.filePath := "";
               BackupResult.size := 0;
               BackupResult.checksum := "";
               BackupResult.error := Some (message error) |}).

(** [BaseAgentAdapter.backup]. *)
Definition backup (a : AgentAdapter) (scope : ConfigScope) : IO string :=
  backupResult ← createBackup (name a) scope;
  if negb (BackupResult.success backupResult)
  then throw (Error ("Failed to create backup: " ++
                     default "undefined" (BackupResult.error backupResult)))
  else mret (BackupResult.filePath backupResult).

(** *** src/adapters/claude.ts *)

Definition isString (v : json) : bool :=
  match v with JStr _ => true | _ => false end.

Definition isStringArray (v : json) : bool :=
  match v with JArr items => forallb isString items | _ => false end.

Definition isStringRecord (v : json) : bool :=
  match v with JObj o => forallb (fun kv => isString (snd kv)) o | _ => false end.

(** A key declared [.optional()]: absent, or of the given shape. *)
Definition optionalKey (shape : json -> bool) (o : Props) (k : string) : bool :=
  match own_get k o with
  | None => true
  | Some v => shape v
  end.

Definition claudeServerConfigSchema (v : json) : bool :=
  match v with
  | JObj o =>
      (match own_get "command" o with
       | Some (JStr _) =>
           optionalKey isStringArray o "args" && optionalKey isStringRecord o "env"
       | _ => false
       end)
      ||
      (match own_get "serverUrl" o with
       | Some (JStr _) => true
       | _ => false
       end)
  | _ => false
  end.

(** [claudeConfigSchema]; the wording of the issues belongs to the
    validation library, one issue stands for them. *)
Definition claudeConfigSchema : ZodSchema.t :=
  {| ZodSchema.accepts := fun config =>
       match config with
       | JObj o =>
           match own_get "mcpServers" o with
           | Some (JObj servers) =>
               forallb (fun kv => claudeServerConfigSchema (snd kv)) servers
           | _ => false
           end
       | _ => false
       end;
     ZodSchema.issues := fun _ =>
       [ {| ZodIssue.path := ["mcpServers"];
            ZodIssue.message := "Invalid input";
            ZodIssue.code := "invalid_type" |} ] |}.

Definition claudeTransformServerConfig (serverId : string)
  (serverConfig : ServerConfig.t) (transport : TransportType) : json :=
  match transport, ServerConfig.url serverConfig with
  | http, Some url => JObj [ ("serverUrl", JStr url) ]
  | _, _ =>
      JObj [ ("command",
              JStr (match ServerConfig.command serverConfig with
                    | Some c => if JS.truthy_string c then c else "npx"
                    | None => "npx"
                    end));
             ("args",
              JArr (map JStr
                      (default ["-y"; "@modelcontextprotocol/server-" ++ serverId]
                               (ServerConfig.args serverConfig))));
             ("env",
              JObj (map (fun kv => (fst kv, JStr (snd kv)))
                        (default [] (ServerConfig.env serverConfig)))) ]
  end.

Definition claudeExtractServers (config : json) : Props :=
  props_or_empty config "mcpServers".

Definition claudeCreateConfigWithServers (servers : Props) : json :=
  JObj [ ("mcpServers", JObj servers) ].

(** An own property of a server entry when its value is truthy. *)
Definition truthyField (v : json) (k : string) : option json :=
  match v with
  | JObj o =>
      match own_get k o with
      | Some x => if truthy x then Some x else None
      | None => None
      end
  | _ => None
  end.

(** [validateClaudeServer] for an entry whose [command], when truthy, is
    a string, as the first alternative of the schema has it. (An entry
    admitted by the second alternative may carry a truthy [command] of
    another type, on which the source's [command.trim()] throws a type
    error; this definition reports no error for it. The message for a
    [serverUrl] that is not a string leaves the value out.) *)
Definition validateClaudeServer (serverId : string) (serverConfig : json) : list string :=
  match truthyField serverConfig "serverUrl" with
  | Some serverUrl =>
      match serverUrl with
      | JStr u =>
          if URL_ok u then []
          else ["Invalid server URL for " ++ serverId ++ ": " ++ u]
      | _ => ["Invalid server URL for " ++ serverId ++ ": "]
      end
  | None =>
      match truthyField serverConfig "command" with
      | Some command =>
          (match command with
           | JStr c =>
               if negb (JS.truthy_string (JS.trim c))
               then ["Empty command for server " ++ serverId] else []
           | _ => []
           end) ++
          (match truthyField serverConfig "args" with
           | Some (JArr _) | None => []
           | Some _ => ["Invalid args format for server " ++ serverId ++ " (must be array)"]
           end) ++
          (match truthyField serverConfig "env" with
           | Some (JObj _) | Some (JArr _) | None => []
           | Some _ => ["Invalid env format for server " ++ serverId ++ " (must be object)"]
           end)
      | None =>
          ["Server " ++ serverId ++ " must have either 'command' or 'serverUrl'"]
      end
  end.

Definition looksSecret (key : string) : bool :=
  let k := JS.toLowerCase key in
  JS.includes k "token" || JS.includes k "key" ||
  JS.includes k "secret" || JS.includes k "password".

(** The warnings for secrets in plain text, for [env] values that are
    strings. (On a truthy value of another type the source's
    [value.startsWith] throws a type error; this definition skips it.) *)
Definition claudeSecretWarnings (servers : Props) : list ValidationError.t :=
  flat_map
    (fun entry =>
       let '(serverId, serverConfig) := entry in
       match truthyField serverConfig "env" with
       | Some (JObj env) =>
           flat_map
             (fun kv =>
                let '(secretKey, value) := kv in
                if looksSecret secretKey then
                  match value with
                  | JStr v =>
                      if JS.truthy_string v && negb (String.prefix "${" v)
                         && negb (String.prefix "$env:" v)
                      then [ {| ValidationError.path :=
                                  "mcpServers." ++ serverId ++ ".env." ++ secretKey;
                                ValidationError.message :=
                                  "Secret value detected in plain text. Consider using environment variables.";
                                ValidationError.code := "PLAINTEXT_SECRET";
                                ValidationError.severity := "warning" |} ]
                      else []
                  | _ => []
                  end
                else [])
             env
       | _ => []
       end)
    servers.

(** [ClaudeAdapter.validate], which overrides the base method. *)
Definition claudeValidate (config : json) : ValidationResult.t :=
  let baseResult := BaseAgentAdapter_validate claudeConfigSchema config in
  if negb (ValidationResult.valid baseResult) then baseResult
  else
    let servers := claudeExtractServers config in
    let errors :=
      app (ValidationResult.errors baseResult) (flat_map
        (fun entry =>
           let '(serverId, serverConfig) := entry in
           map (fun error =>
                  {| ValidationError.path := "mcpServers." ++ serverId;
                     ValidationError.message := error;
                     ValidationError.code := "INVALID_SERVER_CONFIG";
                     ValidationError.severity := "error" |})
               (validateClaudeServer serverId serverConfig))
        servers) in
    {| ValidationResult.valid :=
         if 0 <? Z.of_nat (length errors) then false
         else ValidationResult.valid baseResult;
       ValidationResult.errors := errors;
       ValidationResult.warnings :=
         app (ValidationResult.warnings baseResult) (claudeSecretWarnings servers) |}.

Definition ClaudeAdapter : AgentAdapter :=
  {| name := claude;
     getConfigSchema := claudeConfigSchema;
     transformServerConfig := claudeTransformServerConfig;
     extractServers := claudeExtractServers;
     createConfigWithServers := claudeCreateConfigWithServers;
     validate := claudeValidate |}.

(** *** The other methods of src/adapters/base.ts *)

(** [Object.keys(servers)], or [[]] when reading throws. *)
Definition getInstalledServers (a : AgentAdapter) (scope : ConfigScope)
  : IO (list string) :=
  try_catch
    (config ← read a scope;
     mret (map fst (extractServers a config)))
    (fun _ => mret []).

(** [!!(userConfigPath || projectConfigPath)]. *)
Definition isInstalled (a : AgentAdapter) : IO bool :=
  userConfigPath ← findConfigFile (name a) user;
  projectConfigPath ← findConfigFile (name a) project;
  mret (match userConfigPath with
        | Some p => JS.truthy_string p
        | None => false
        end
        || match projectConfigPath with
           | Some p => JS.truthy_string p
           | None => false
           end).

Definition exportConfig (a : AgentAdapter) (scope : ConfigScope) : IO json :=
  read a scope.

Definition importConfig (a : AgentAdapter) (config : json)
  (scope : ConfigScope) (merge : bool) : IO unit :=
  if merge then mergeConfig a config scope false else write a config scope.

(** *** src/utils/config.ts: restoring *)

Definition saveAgentConfig (agent : AgentType) (config : json)
  (scope : ConfigScope) : IO unit :=
  let configPath := getAgentConfigPath agent scope in
  try_catch
    (ensureDir (path_dirname configPath);;
     writeFile configPath (JSON_stringify2 config))
    (fun error =>
       throw (Error ("Failed to save " ++ agentName agent ++
                     " configuration: " ++ message error))).

(** The agent a metadata value names; any other value makes
    [getAgentConfigPaths] throw. *)
Definition agentOfJson (v : option json) : option AgentType :=
  match v with
  | Some (JStr s) =>
      List.find (fun agent => String.eqb (agentName agent) s)
        [claude; gemini; cursor; vscode; windsurf; cline; visual_studio]
  | _ => None
  end.

(** The scope a metadata value stands for: the paths functions compare it
    with ['project'] only. *)
Definition scopeOfJson (v : option json) : ConfigScope :=
  match v with
  | Some (JStr s) =>
      if String.eqb s "project" then project
      else if String.eqb s "remote" then remote
      else user
  | _ => user
  end.

(** [changesDetected]: the current configuration cannot be loaded, or its
    compact text differs from the snapshot's. *)
Definition detectChanges (agent : AgentType) (scope : ConfigScope) (config : json)
  : IO bool :=
  try_catch
    (currentConfig ← loadAgentConfig agent scope;
     mret (negb (String.eqb (JSON_stringify currentConfig) (JSON_stringify config))))
    (fun _ => mret true).

(** [currentChecksum === metadata.checksum]. *)
Definition storedChecksumIs (metadata : json) (currentChecksum : string) : bool :=
  match property metadata "checksum" with
  | Some (JStr stored) => String.eqb currentChecksum stored
  | _ => false
  end.

Definition backupFileOf (backupId : string) : string :=
  path_join getBackupDir (createSafeFilename backupId ++ ".json").

(** [Unknown agent: ${agent}], the error of [getAgentConfigPaths]; the text
    of a value that is neither a string nor undefined is the platform's. *)
Definition unknownAgent (v : option json) : JsError :=
  Error ("Unknown agent: " ++
         match v with
         | None => "undefined"
         | Some (JStr s) => s
         | Some JNull => "null"
         | Some (JBool b) => if b then "true" else "false"
         | Some (JNum n) => pretty n
         | Some _ => "[object Object]"
         end).

(** [restoreBackup] never throws. The messages of the type errors raised
    when the document lacks its parts are the platform's; fixed texts stand
    for them. *)
Definition restoreBackup (backupId : string) : IO RestoreResult.t :=
  try_catch
    (let backupPath := backupFileOf backupId in
     found ← pathExists backupPath;
     if negb found then throw (Error ("Backup not found: " ++ backupId))
     else
       backupContent ← readFile backupPath;
       match JSON_parse backupContent with
       | None => throw (Error "Unexpected token in JSON")
       | Some JNull => throw (Error "Cannot destructure property 'metadata' of null")
       | Some backupData =>
           match property backupData "config" with
           | None => throw (Error "Cannot read properties of undefined (reading 'length')")
           | Some config =>
               let currentChecksum := calculateChecksum (JSON_stringify config) in
               match property backupData "metadata" with
               | None | Some JNull =>
                   throw (Error "Cannot read properties of undefined (reading 'checksum')")
               | Some metadata =>
                   if negb (storedChecksumIs metadata currentChecksum)
                   then throw (Error "Backup integrity check failed")
                   else
                     let scope := scopeOfJson (property metadata "scope") in
                     match agentOfJson (property metadata "agent") with
                     | None => throw (unknownAgent (property metadata "agent"))
                     | Some agent =>
                         changesDetected ← detectChanges agent scope config;
                         saveAgentConfig agent config scope;;
                         mret {| RestoreResult.success := true;
                                 RestoreResult.backupId := backupId;
                                 RestoreResult.configPath := property metadata "configPath";
                                 RestoreResult.error := None;
                                 RestoreResult.changesDetected := changesDetected |}
                     end
               end
           end
       end)
    (fun error =>
       mret {| RestoreResult.success := false;
               RestoreResult.backupId := backupId;
               RestoreResult.configPath := Some (JStr "");
               RestoreResult.error := Some (message error);
               RestoreResult.changesDetected := false |}).

End WithNode.

End Adapters.

(** ** The claims, in the words of the specification *)

Module Claims.
Import Registry Adapters.

(** *** Relevance as a weighted sum *)

Definition indicator (b : bool) : Q := if b then 1%Q else 0%Q.

(** Case-insensitive containment of the query in a text. *)
Definition contains (text query : string) : bool :=
  JS.includes (JS.toLowerCase text) (JS.toLowerCase query).

Definition tagContains (server : MCPServer.t) (query : string) : bool :=
  existsb (fun tag => contains tag query) (MCPServer.tags server).

(** Fixed weights: name 10, title 8, description 5, maintainer 3, tags 4. *)
Definition substringWeights (server : MCPServer.t) (query : string) : Q :=
  (10 * indicator (contains (MCPServer.name server) query) +
   8 * indicator (contains (MCPServer.title server) query) +
   5 * indicator (contains (MCPServer.description server) query) +
   3 * indicator (contains (MCPServer.maintainer server) query) +
   4 * indicator (tagContains server query))%Q.

Definition containedSomewhere (server : MCPServer.t) (query : string) : bool :=
  contains (MCPServer.name server) query ||
  contains (MCPServer.title server) query ||
  contains (MCPServer.description server) query ||
  contains (MCPServer.maintainer server) query ||
  tagContains server query.

(** The fuzzy bonus: granted when fuzzy matching is on and no field
    contains the query; the description counts half. *)
Definition fuzzyBonus (server : MCPServer.t) (query : string) (fuzzy : bool) : Q :=
  if fuzzy && negb (containedSomewhere server query)
  then (fuzzyMatch (JS.toLowerCase query) (JS.toLowerCase (MCPServer.name server)) +
        fuzzyMatch (JS.toLowerCase query) (JS.toLowerCase (MCPServer.description server))
        * (1 # 2))%Q
  else 0%Q.

Definition popularityBoost (server : MCPServer.t) : Q :=
  let downloads := parseDownloads (MCPServer.estWeeklyDownloads server) in
  if 10000 <? downloads then 2%Q else if 1000 <? downloads then 1%Q else 0%Q.

Definition officialBoost (server : MCPServer.t) : Q :=
  indicator (bool_decide (MCPServer.classification server = official)) * 2.

Definition weightedScore (server : MCPServer.t) (query : string) (fuzzy : bool) : Q :=
  (substringWeights server query + fuzzyBonus server query fuzzy +
   popularityBoost server + officialBoost server)%Q.

(** The query is not blank: something is left of it after trimming, which
    is the test of [searchServers] and the query the response reports. A
    query of white space only is not empty, and is blank. *)
Definition nonEmptyQuery (f : SearchFilters.t) : Prop :=
  JS.trim (queryOf f) <> "".

(** *** Every supplied filter *)

(** A list filter is supplied when it is not empty, a text filter when it
    is a non-empty string, a flag or a threshold when it is defined. *)
Definition satisfiesClassification (f : SearchFilters.t) (s : MCPServer.t) : Prop :=
  forall l, SearchFilters.classification f = Some l -> l <> [] ->
    In (MCPServer.classification s) l.

Definition satisfiesTransportTypes (f : SearchFilters.t) (s : MCPServer.t) : Prop :=
  forall l, SearchFilters.transportTypes f = Some l -> l <> [] ->
    exists t, In t l /\ In t (MCPServer.transportTypes s).

Definition satisfiesSupportedPlatforms (f : SearchFilters.t) (s : MCPServer.t) : Prop :=
  forall l, SearchFilters.supportedPlatforms f = Some l -> l <> [] ->
    exists p, In p l /\ In p (MCPServer.supportedPlatforms s).

Definition satisfiesTags (f : SearchFilters.t) (s : MCPServer.t) : Prop :=
  forall l, SearchFilters.tags f = Some l -> l <> [] ->
    exists t, In t l /\ In t (MCPServer.tags s).

Definition satisfiesMaintainer (f : SearchFilters.t) (s : MCPServer.t) : Prop :=
  forall m, SearchFilters.maintainer f = Some m -> m <> "" ->
    contains (MCPServer.maintainer s) m = true.

Definition satisfiesCategory (f : SearchFilters.t) (s : MCPServer.t) : Prop :=
  forall c, SearchFilters.category f = Some c -> c <> "" ->
    MCPServer.category s = Some c.

Definition satisfiesLicense (f : SearchFilters.t) (s : MCPServer.t) : Prop :=
  forall l, SearchFilters.license f = Some l -> l <> "" ->
    MCPServer.license s = Some l.

Definition satisfiesDockerSupport (f : SearchFilters.t) (s : MCPServer.t) : Prop :=
  forall d, SearchFilters.dockerSupport f = Some d -> MCPServer.dockerSupport s = d.

(** A server has an npm package when the field is a non-empty string. *)
Definition hasPackage (s : MCPServer.t) : bool :=
  match MCPServer.npmPackage s with
  | Some p => JS.truthy_string p
  | None => false
  end.

Definition satisfiesHasNpmPackage (f : SearchFilters.t) (s : MCPServer.t) : Prop :=
  forall b, SearchFilters.hasNpmPackage f = Some b -> hasPackage s = b.

Definition satisfiesMinDownloads (f : SearchFilters.t) (s : MCPServer.t) : Prop :=
  forall m, SearchFilters.minDownloads f = Some m ->
    (m <= inject_Z (parseDownloads (MCPServer.estWeeklyDownloads s)))%Q.

Definition satisfiesEveryFilter (f : SearchFilters.t) (s : MCPServer.t) : Prop :=
  satisfiesClassification f s /\ satisfiesTransportTypes f s /\
  satisfiesSupportedPlatforms f s /\ satisfiesTags f s /\
  satisfiesMaintainer f s /\ satisfiesCategory f s /\ satisfiesLicense f s /\
  satisfiesDockerSupport f s /\ satisfiesHasNpmPackage f s /\
  satisfiesMinDownloads f s.

(** *** A textual match *)

(** The pattern occurs in the text as a subsequence. *)
Fixpoint isSubsequence (pattern text : string) {struct text} : bool :=
  match pattern, text with
  | EmptyString, _ => true
  | String _ _, EmptyString => false
  | String p prest, String c trest =>
      if Ascii.eqb c p then isSubsequence prest trest
      else isSubsequence pattern trest
  end.

(** The query is contained in one of the five fields, or is a
    subsequence of the name or of the description. *)
Definition textuallyMatches (server : MCPServer.t) (query : string) : bool :=
  containedSomewhere server query ||
  isSubsequence (JS.toLowerCase query) (JS.toLowerCase (MCPServer.name server)) ||
  isSubsequence (JS.toLowerCase query) (JS.toLowerCase (MCPServer.description server)).

(** *** Pagination *)

(** At most [limit] entries, taken from the sorted matches starting at
    [offset]; the total counts the matches; [hasMore] compares. *)
Definition paginates (response : SearchResponse.t)
  (sorted : list SearchResult.t) (offset limit : Z) : Prop :=
  Z.of_nat (length (SearchResponse.results response)) <= limit /\
  SearchResponse.results response =
    firstn (Z.to_nat limit) (skipn (Z.to_nat offset) sorted) /\
  SearchResponse.total response = Z.of_nat (length sorted) /\
  (SearchResponse.hasMore response = true <->
   offset + limit < SearchResponse.total response).

(** *** A static registry file *)



(** *** Effects of an operation on the file system *)

(** The events a method adds to the log. *)
Definition effectsOf {A} (m : IO A) (fs : FileSystem) : list Event :=
  skipn (length (log fs)) (log (snd (m fs))).

Section WithNode.
Context {N : Node}.

(** An event that writes a snapshot: a document of metadata and
    configuration. *)
Definition writesSnapshot (e : Event) : Prop :=
  exists p metadata config,
    e = WriteFile p (JSON_stringify2 (backupData metadata config)).

(** Whenever the configuration file is rewritten, a snapshot was written
    earlier in the same operation. *)
Definition backsUpBeforeRewrite (configPath : string) (effects : list Event) : Prop :=
  forall before content rest,
    effects = (before ++ WriteFile configPath content :: rest)%list ->
    Exists writesSnapshot before.

(** The two things an operation may have done to the file system. *)
Definition untouched_or_rewritten (a : AgentAdapter) (scope : ConfigScope)
  (fs fs' : FileSystem) : Prop :=
  fs' = fs \/
  exists content,
    fs' = {| files := <[getConfigPath a scope := content]> (files fs);
             log := (log fs ++ [Mkdir (path_dirname (getConfigPath a scope));
                                WriteFile (getConfigPath a scope) content])%list |}.

End WithNode.

(** Evaluate a test on a closed score. *)
Ltac eval_zero_test :=
  repeat match goal with
  | |- context [Qeq_bool ?x 0] =>
      let v := eval vm_compute in (Qeq_bool x 0) in
      change (Qeq_bool x 0) with v
  end.

(** Settle the next early return of the chain. *)
Ltac next_test :=
  match goal with
  | |- (if ?c then false else _) = true =>
      let E := fresh "T" in
      assert (E : c = false); [ | rewrite E; clear E ]
  end.

End Claims.

(** ** A platform and data to run the model on *)

Module Example.
Import Registry Adapters.

Definition quote : string := String (ascii_of_nat 34) EmptyString.

Definition pad (level : nat) : string := String.concat "" (repeat "  " level).

(** A serializer for documents without characters that need escaping:
    compact, or indented by two spaces. *)
Fixpoint stringify (indented : bool) (level : nat) (v : json) : string :=
  let newline l := if indented then String (ascii_of_nat 10) (pad l) else "" in
  let colon := if indented then ": " else ":" in
  match v with
  | JNull => "null"
  | JBool b => if b then "true" else "false"
  | JNum n => pretty n
  | JStr s => quote ++ s ++ quote
  | JArr [] => "[]"
  | JArr items =>
      let fix each l :=
        match l with
        | [] => []
        | x :: r => (newline (S level) ++ stringify indented (S level) x) :: each r
        end in
      "[" ++ String.concat "," (each items) ++ newline level ++ "]"
  | JObj [] => "{}"
  | JObj props =>
      let fix each l :=
        match l with
        | [] => []
        | (k, x) :: r =>
            (newline (S level) ++ quote ++ k ++ quote ++ colon
             ++ stringify indented (S level) x) :: each r
        end in
      "{" ++ String.concat "," (each props) ++ newline level ++ "}"
  end.

(** A parser that knows the given documents in both layouts. *)
Definition parseKnown (known : list json) (text : string) : option json :=
  find (fun v => String.eqb (stringify true 0 v) text
                 || String.eqb (stringify false 0 v) text) known.

(** [path.dirname] for a path with forward slashes: [dropSegment s] tells
    what is kept of [s] when a slash precedes it. *)
Fixpoint dropSegment (s : string) : option string :=
  match s with
  | EmptyString => None
  | String c r =>
      match dropSegment r with
      | Some kept => Some (String c kept)
      | None => if Ascii.eqb c "/" then Some EmptyString else None
      end
  end.

Definition dirname (p : string) : string := default "." (dropSegment p).

(** A Linux machine whose home directory is [/home/dev]. *)
Definition linux (known : list json) : Node :=
  {| JSON_parse := parseKnown known;
     JSON_stringify := stringify false 0;
     JSON_stringify2 := stringify true 0;
     path_dirname := dirname;
     path_join := fun a b => a ++ "/" ++ b;
     resolvePlatformPath := fun p =>
       match p with
       | String "~" (String "/" r) => "/home/dev/" ++ r
       | _ => p
       end;
     IS_WINDOWS := false;
     IS_MACOS := false;
     URL_ok := fun u => String.prefix "http://" u || String.prefix "https://" u;
     toISOString_now := "2024-01-15T10:30:00.000Z" |}.

(** Code-unit order for collation, and the leading number of a date. *)
Definition plainLocale : Locale :=
  {| localeCompare := String.compare;
     Date_getTime := JS.parseInt |}.

Definition emptyDisk : FileSystem := {| files := ∅; log := [] |}.

Definition server (id title : string) (c : ServerClassification)
  (downloads : string) (tags : list string) : MCPServer.t :=
  {| MCPServer.id := id;
     MCPServer.name := id;
     MCPServer.title := title;
     MCPServer.description := "Server for " ++ title;
     MCPServer.classification := c;
     MCPServer.maintainer := "acme";
     MCPServer.license := Some "MIT";
     MCPServer.estWeeklyDownloads := downloads;
     MCPServer.lastUpdated := "2024";
     MCPServer.supportedPlatforms := [claude; vscode];
     MCPServer.transportTypes := [stdio];
     MCPServer.npmPackage := None;
     MCPServer.dockerSupport := false;
     MCPServer.tags := tags;
     MCPServer.category := Some "Development" |}.

Definition github : MCPServer.t :=
  server "github" "GitHub" official "N/A" ["git"].
Definition mysql : MCPServer.t :=
  server "mysql" "MySQL" community "15k" ["database"].
Definition files_ : MCPServer.t :=
  server "filesystem" "Files" community "800" ["io"].

Definition sampleRegistry : MCPRegistry.t :=
  {| MCPRegistry.metadata :=
       {| RegistryMetadata.version := "1.0.0";
          RegistryMetadata.lastUpdated := "2024";
          RegistryMetadata.totalServers := 3;
          RegistryMetadata.sources := [];
          RegistryMetadata.categories := ["Development"];
          RegistryMetadata.tags := ["git"; "database"; "io"] |};
     MCPRegistry.servers := [github; mysql; files_] |}.

(** The manager one minute after it loaded the sample registry. *)
Definition sampleManager : MCPRegistryManager :=
  {| registry := Some sampleRegistry; lastLoaded := Some 0 |}.

Definition sampleHost : Host :=
  {| clock := 60000; registryFile := Ok sampleRegistry |}.

Definition noFilters : SearchFilters.t :=
  {| SearchFilters.query := None;
     SearchFilters.tags := None;
     SearchFilters.classification := None;
     SearchFilters.transportTypes := None;
     SearchFilters.supportedPlatforms := None;
     SearchFilters.maintainer := None;
     SearchFilters.category := None;
     SearchFilters.license := None;
     SearchFilters.minDownloads := None;
     SearchFilters.dockerSupport := None;
     SearchFilters.hasNpmPackage := None |}.

Definition queryFor (q : string) : SearchFilters.t :=
  {| SearchFilters.query := Some q;
     SearchFilters.tags := None;
     SearchFilters.classification := None;
     SearchFilters.transportTypes := None;
     SearchFilters.supportedPlatforms := None;
     SearchFilters.maintainer := None;
     SearchFilters.category := None;
     SearchFilters.license := None;
     SearchFilters.minDownloads := None;
     SearchFilters.dockerSupport := None;
     SearchFilters.hasNpmPackage := None |}.

Definition defaultOptions : SearchOptions.t :=
  {| SearchOptions.fuzzy := None;
     SearchOptions.limit := None;
     SearchOptions.offset := None;
     SearchOptions.sortBy := None;
     SearchOptions.sortOrder := None |}.

Definition page (offset limit : Z) : SearchOptions.t :=
  {| SearchOptions.fuzzy := None;
     SearchOptions.limit := Some limit;
     SearchOptions.offset := Some offset;
     SearchOptions.sortBy := None;
     SearchOptions.sortOrder := None |}.

Definition stdioServer (command : string) : ServerConfig.t :=
  {| ServerConfig.command := Some command;
     ServerConfig.args := Some [];
     ServerConfig.env := None;
     ServerConfig.transport := None;
     ServerConfig.url := None |}.

End Example.

(** ** Notions used to state further properties *)

Module Coverage.
Import Registry Adapters.

(** The order in which two neighbours of a sorted page stand, for a key
    and the order asked for. *)
Definition orderedBy {K} (le : K -> K -> Prop) (key : SearchResult.t -> K)
  (sortOrder : SortOrder) (a b : SearchResult.t) : Prop :=
  match sortOrder with
  | desc => le (key b) (key a)
  | asc => le (key a) (key b)
  end.

Definition downloadsOf (s : MCPServer.t) : Z :=
  parseDownloads (MCPServer.estWeeklyDownloads s).

(** Filters that ask for a category and for nothing else. *)
Definition categoryOnly (c : string) : SearchFilters.t :=
  {| SearchFilters.query := None;
     SearchFilters.tags := None;
     SearchFilters.classification := None;
     SearchFilters.transportTypes := None;
     SearchFilters.supportedPlatforms := None;
     SearchFilters.maintainer := None;
     SearchFilters.category := Some c;
     SearchFilters.license := None;
     SearchFilters.minDownloads := None;
     SearchFilters.dockerSupport := None;
     SearchFilters.hasNpmPackage := None |}.

(** The copy in memory has to be loaded before it is used: nothing is
    loaded, or the copy is older than five minutes. *)
Definition mustLoad (h : Host) (st : MCPRegistryManager) : Prop :=
  registry st = None \/ lastLoaded st = None \/
  exists t, lastLoaded st = Some t /\ 5 * 60 * 1000 < clock h - t.

(** A string of decimal digits. *)
Definition isDigit (c : ascii) : bool :=
  let n := nat_of_ascii c in ((48 <=? n) && (n <=? 57))%nat.

Fixpoint allDigits (s : string) : bool :=
  match s with
  | EmptyString => true
  | String c r => isDigit c && allDigits r
  end.

(** The polynomial hash of a text in base 31, without wrapping. *)
Fixpoint polynomialHash (content : string) (hash : Z) : Z :=
  match content with
  | EmptyString => hash
  | String c r => polynomialHash r (31 * hash + Z.of_nat (nat_of_ascii c))
  end.

Fixpoint allUnits (P : ascii -> bool) (s : string) : bool :=
  match s with
  | EmptyString => true
  | String c r => P c && allUnits P r
  end.

(** A character that may stand in a file name on every platform. *)
Definition safeUnit (c : ascii) : bool :=
  negb (unsafeInFilename c) && negb (JS.isWhiteSpace c).

(** A character [n.toString(16)] prints. *)
Definition isHexDigit (c : ascii) : bool :=
  let n := nat_of_ascii c in
  (((48 <=? n) && (n <=? 57)) || ((97 <=? n) && (n <=? 102)))%nat.

(** The weight the score gives to a field that [getMatchedFields] names. *)
Definition fieldWeight (field : string) : Q :=
  if String.eqb field "name" then 10
  else if String.eqb field "title" then 8
  else if String.eqb field "description" then 5
  else if String.eqb field "maintainer" then 3
  else if String.eqb field "tags" then 4
  else 0.

Definition totalWeight (fields : list string) : Q :=
  fold_right (fun field total => (fieldWeight field + total)%Q) 0%Q fields.


(** How each destructive operation introduces the error it wraps. *)
Definition failurePrefix (op : DestructiveOperation) : string :=
  match op with
  | OpAddServer serverId _ | OpUpdateServer serverId _ =>
      "Failed to add server " ++ serverId ++ ": "
  | OpRemoveServer serverId => "Failed to remove server " ++ serverId ++ ": "
  | OpMergeConfig _ _ => "Failed to merge configuration: "
  end.

End Coverage.

(** * Properties *)

(** ** Arrays *)

Module ArrayFacts.

Lemma sort_insert_perm {A} (cmp : A -> A -> comparison) (x : A) (l : list A) :
  Permutation (JS.sort_insert cmp x l) (x :: l).
Proof.
  induction l as [|y r IH]; simpl.
  - reflexivity.
  - destruct (cmp x y); try reflexivity.
    rewrite IH. apply perm_swap.
Qed.

(** Sorting rearranges: nothing is lost and nothing is added. *)
Lemma Array_sort_perm {A} (cmp : A -> A -> comparison) (a : list A) :
  Permutation (JS.Array_sort cmp a) a.
Proof.
  unfold JS.Array_sort.
  induction a as [|x r IH]; simpl.
  - reflexivity.
  - rewrite sort_insert_perm. now rewrite IH.
Qed.

Lemma Array_sort_In {A} (cmp : A -> A -> comparison) (a : list A) (x : A) :
  In x (JS.Array_sort cmp a) <-> In x a.
Proof.
  split; apply Permutation_in;
    [ apply Array_sort_perm | symmetry; apply Array_sort_perm ].
Qed.

Lemma Array_sort_length {A} (cmp : A -> A -> comparison) (a : list A) :
  length (JS.Array_sort cmp a) = length a.
Proof. apply Permutation_length, Array_sort_perm. Qed.

Lemma In_firstn {A} (n : nat) (l : list A) (x : A) : In x (firstn n l) -> In x l.
Proof.
  revert l; induction n as [|n IH]; intros [|y l]; simpl; try tauto.
  intros [->|H]; auto.
Qed.

Lemma In_skipn {A} (n : nat) (l : list A) (x : A) : In x (skipn n l) -> In x l.
Proof.
  revert l; induction n as [|n IH]; intros [|y l]; simpl; try tauto.
  intros H; right; auto.
Qed.

(** A slice holds elements of the array only. *)
Lemma Array_slice_In {A} (a : list A) (start stop : Z) (x : A) :
  In x (JS.Array_slice a start stop) -> In x a.
Proof. unfold JS.Array_slice. intros H. eapply In_skipn, In_firstn, H. Qed.

Lemma firstn_min_length {A} (n : nat) (l : list A) :
  firstn (Nat.min n (length l)) l = firstn n l.
Proof.
  revert l; induction n as [|n IH]; intros [|y l]; simpl; try reflexivity.
  now rewrite IH.
Qed.

Lemma skipn_beyond {A} (n : nat) (l : list A) :
  (length l <= n)%nat -> skipn n l = [].
Proof.
  revert l; induction n as [|n IH]; intros [|y l]; simpl; intros H;
    try reflexivity; try lia.
  apply IH; lia.
Qed.

(** With indices that are not negative, a slice is "skip, then take". *)
Lemma Array_slice_nonneg {A} (a : list A) (offset limit : Z) :
  0 <= offset -> 0 <= limit ->
  JS.Array_slice a offset (offset + limit) =
  firstn (Z.to_nat limit) (skipn (Z.to_nat offset) a).
Proof.
  intros Ho Hl. unfold JS.Array_slice, JS.slice_index.
  destruct (Z.ltb_spec offset 0) as [?|_]; [lia|].
  destruct (Z.ltb_spec (offset + limit) 0) as [?|_]; [lia|].
  destruct (Z_le_gt_dec (Z.of_nat (length a)) offset) as [Hge|Hlt].
  - rewrite (skipn_beyond (Z.to_nat offset)) by lia.
    rewrite (skipn_beyond (Z.to_nat (Z.min offset (Z.of_nat (length a))))) by lia.
    now rewrite !firstn_nil.
  - rewrite (Z.min_l offset) by lia.
    rewrite <- (firstn_min_length (Z.to_nat limit)).
    f_equal. rewrite length_skipn. lia.
Qed.

Lemma Array_slice_length_le {A} (a : list A) (offset limit : Z) :
  0 <= offset -> 0 <= limit ->
  Z.of_nat (length (JS.Array_slice a offset (offset + limit))) <= limit.
Proof.
  intros Ho Hl. rewrite Array_slice_nonneg by assumption.
  rewrite length_firstn. lia.
Qed.

End ArrayFacts.

(** ** The registry manager *)

Module RegistryFacts.
Import Registry Claims ArrayFacts.

(** The score of the code is the weighted sum of the specification. *)
Lemma calculateRelevanceScore_weighted server query fuzzy :
  (calculateRelevanceScore server query fuzzy == weightedScore server query fuzzy)%Q.
Proof.
  unfold calculateRelevanceScore, weightedScore, substringWeights, fuzzyBonus,
    popularityBoost, officialBoost, containedSomewhere, tagContains, contains,
    someTagIncludes.
  set (F := (fuzzyMatch _ _ + fuzzyMatch _ _ * _)%Q). clearbody F.
  set (a := JS.includes (JS.toLowerCase (MCPServer.name server)) _). clearbody a.
  set (b := JS.includes (JS.toLowerCase (MCPServer.title server)) _). clearbody b.
  set (c := JS.includes (JS.toLowerCase (MCPServer.description server)) _). clearbody c.
  set (d := JS.includes (JS.toLowerCase (MCPServer.maintainer server)) _). clearbody d.
  set (e := existsb _ _). clearbody e.
  set (p := 10000 <? _). clearbody p.
  set (q := 1000 <? _). clearbody q.
  set (o := bool_decide _). clearbody o.
  destruct a, b, c, d, e, fuzzy; cbv zeta; cbn [andb orb negb indicator];
    eval_zero_test; cbv iota; destruct p, q, o; cbn [indicator]; ring.
Qed.

Section WithLocale.
Context {L : Locale}.

(** What a successful search returns, and on which registry. *)
Lemma searchServers_Ok h f o st response st' :
  searchServers h f o st = (Ok response, st') ->
  exists r, registry st' = Some r /\
            response = search f o (MCPRegistry.servers r).
Proof.
  unfold searchServers, mbind, M_bind, mret, M_ret, loaded.
  destruct (ensureLoaded h st) as [[[]|e] st1]; [|discriminate].
  destruct (registry st1) as [r|] eqn:Hr; [|discriminate].
  intros [= <- <-]. eauto.
Qed.

(** A result of a search was scored, and its server passed the filters. *)
Lemma search_results_scored f o servers r :
  In r (SearchResponse.results (search f o servers)) ->
  In r (scoredResults f o (filteredServers f servers)).
Proof.
  unfold search, sortedResults. cbn [SearchResponse.results].
  intros H. apply Array_slice_In in H. now apply Array_sort_In in H.
Qed.



End WithLocale.



(** *** Filters *)

Lemma Array_includes_In {A} `{EqDecision A} (a : list A) (x : A) :
  Array_includes a x = true <-> In x a.
Proof.
  unfold Array_includes. rewrite existsb_exists. split.
  - intros (y & Hy & Heq). apply bool_decide_eq_true in Heq. now subst.
  - intros H. exists x. split; [assumption|]. now apply bool_decide_eq_true.
Qed.

Lemma some_includes_In {A} `{EqDecision A} (wanted have : list A) :
  existsb (fun t => Array_includes have t) wanted = true <->
  exists t, In t wanted /\ In t have.
Proof.
  rewrite existsb_exists. split; intros (t & Ht & Hi); exists t; split; auto;
    now apply Array_includes_In.
Qed.

Lemma non_empty_length {A} (l : list A) :
  (0 <? Z.of_nat (length l)) = true <-> l <> [].
Proof.
  destruct l; simpl; split; intros H; try congruence; try reflexivity.
  discriminate.
Qed.

Lemma truthy_string_iff (s : string) : JS.truthy_string s = true <-> s <> "".
Proof. destruct s; simpl; split; intros H; congruence. Qed.

(** The chain of early returns is the conjunction of the ten tests. *)
Lemma matchesFilters_true f s :
  matchesFilters f s = true <-> satisfiesEveryFilter f s.
Proof.
  unfold matchesFilters, satisfiesEveryFilter, satisfiesClassification,
    satisfiesTransportTypes, satisfiesSupportedPlatforms, satisfiesTags,
    satisfiesMaintainer, satisfiesCategory, satisfiesLicense,
    satisfiesDockerSupport, satisfiesHasNpmPackage, satisfiesMinDownloads,
    hasPackage, contains.
  split.
  - intros H.
    repeat match type of H with
    | (if ?c then false else _) = true =>
        let E := fresh "E" in destruct c eqn:E; [discriminate H|]
    end.
    clear H.
    repeat match goal with
    | E : _ && negb _ = false |- _ => apply andb_false_iff in E
    end.
    repeat split.
    + intros l Hl Hne. rewrite Hl in E. cbn in E.
      destruct E as [E|E]; [apply non_empty_length in Hne; congruence|].
      apply negb_false_iff in E. now apply Array_includes_In.
    + intros l Hl Hne. rewrite Hl in E0. cbn in E0.
      destruct E0 as [E0|E0]; [apply non_empty_length in Hne; congruence|].
      apply negb_false_iff in E0. now apply some_includes_In.
    + intros l Hl Hne. rewrite Hl in E1. cbn in E1.
      destruct E1 as [E1|E1]; [apply non_empty_length in Hne; congruence|].
      apply negb_false_iff in E1. now apply some_includes_In.
    + intros l Hl Hne. rewrite Hl in E2. cbn in E2.
      destruct E2 as [E2|E2]; [apply non_empty_length in Hne; congruence|].
      apply negb_false_iff in E2. now apply some_includes_In.
    + intros m Hm Hne. rewrite Hm in E3. apply andb_false_iff in E3.
      destruct E3 as [E3|E3]; [apply truthy_string_iff in Hne; congruence|].
      now apply negb_false_iff in E3.
    + intros c Hc Hne. rewrite Hc in E4. apply andb_false_iff in E4.
      destruct E4 as [E4|E4]; [apply truthy_string_iff in Hne; congruence|].
      apply negb_false_iff in E4. now apply bool_decide_eq_true in E4.
    + intros l Hl Hne. rewrite Hl in E5. apply andb_false_iff in E5.
      destruct E5 as [E5|E5]; [apply truthy_string_iff in Hne; congruence|].
      apply negb_false_iff in E5. now apply bool_decide_eq_true in E5.
    + intros d Hd. rewrite Hd in E6.
      apply negb_false_iff in E6. now apply bool_decide_eq_true in E6.
    + intros b Hb. rewrite Hb in E7.
      apply negb_false_iff in E7. now apply bool_decide_eq_true in E7.
    + intros m Hm. rewrite Hm in E8.
      apply negb_false_iff in E8. now apply Qle_bool_iff.
  - intros (H1 & H2 & H3 & H4 & H5 & H6 & H7 & H8 & H9 & H10).
    next_test.
    { destruct (SearchFilters.classification f) as [[|x l]|] eqn:E;
        try reflexivity.
      rewrite (proj2 (Array_includes_In _ _)); [reflexivity|].
      apply (H1 _ eq_refl). congruence. }
    next_test.
    { destruct (SearchFilters.transportTypes f) as [[|x l]|] eqn:E;
        try reflexivity.
      rewrite (proj2 (some_includes_In _ _)); [reflexivity|].
      apply (H2 _ eq_refl). congruence. }
    next_test.
    { destruct (SearchFilters.supportedPlatforms f) as [[|x l]|] eqn:E;
        try reflexivity.
      rewrite (proj2 (some_includes_In _ _)); [reflexivity|].
      apply (H3 _ eq_refl). congruence. }
    next_test.
    { destruct (SearchFilters.tags f) as [[|x l]|] eqn:E; try reflexivity.
      rewrite (proj2 (some_includes_In _ _)); [reflexivity|].
      apply (H4 _ eq_refl). congruence. }
    next_test.
    { destruct (SearchFilters.maintainer f) as [[|c m]|] eqn:E; try reflexivity.
      rewrite (H5 _ eq_refl) by congruence. reflexivity. }
    next_test.
    { destruct (SearchFilters.category f) as [[|c m]|] eqn:E; try reflexivity.
      rewrite (H6 _ eq_refl) by congruence. rewrite bool_decide_eq_true_2; reflexivity. }
    next_test.
    { destruct (SearchFilters.license f) as [[|c m]|] eqn:E; try reflexivity.
      rewrite (H7 _ eq_refl) by congruence. rewrite bool_decide_eq_true_2; reflexivity. }
    next_test.
    { destruct (SearchFilters.dockerSupport f) as [d|] eqn:E; try reflexivity.
      rewrite (H8 _ eq_refl). rewrite bool_decide_eq_true_2; reflexivity. }
    next_test.
    { destruct (SearchFilters.hasNpmPackage f) as [b|] eqn:E; try reflexivity.
      rewrite (H9 _ eq_refl). rewrite bool_decide_eq_true_2; reflexivity. }
    next_test.
    { destruct (SearchFilters.minDownloads f) as [m|] eqn:E; try reflexivity.
      rewrite (proj2 (Qle_bool_iff _ _) (H10 _ eq_refl)). reflexivity. }
    reflexivity.
Qed.


(** Every result of a search is a candidate: a server that fails a
    supplied filter is in no page of the results. *)
Lemma results_are_candidates {L : Locale} f o servers r :
  In r (SearchResponse.results (search f o servers)) ->
  In (SearchResult.server r) servers /\
  satisfiesEveryFilter f (SearchResult.server r).
Proof.
  intros Hr. apply search_results_scored in Hr.
  rewrite <- matchesFilters_true, <- filter_In.
  change (In (SearchResult.server r) (filteredServers f servers)).
  revert Hr. unfold scoredResults.
  destruct (JS.truthy_string (JS.trim (queryOf f)));
    [rewrite filter_In|]; rewrite in_map_iff;
    [intros [(srv & <- & Hs) _]|intros (srv & <- & Hs)]; exact Hs.
Qed.

(** *** Textual matches *)

(** The loop of [fuzzyMatch] uses up the pattern only when the pattern is
    a subsequence of the text. *)
Lemma fuzzyLoop_consumed text : forall pattern score consecutive,
  fst (fuzzyLoop text pattern score consecutive) = "" ->
  isSubsequence pattern text = true.
Proof.
  induction text as [|c text IH]; intros [|p pattern] score consecutive; simpl;
    try reflexivity; try discriminate.
  destruct (Ascii.eqb c p); apply IH.
Qed.

Lemma fuzzyMatch_positive pattern text :
  (0 < fuzzyMatch pattern text)%Q -> isSubsequence pattern text = true.
Proof.
  unfold fuzzyMatch. destruct pattern as [|p pattern]; [intros H; inversion H|].
  destruct text as [|c text]; [intros H; inversion H|].
  destruct (fuzzyLoop _ _ 0 0) as [rest score] eqn:E.
  destruct rest; [|intros H; inversion H].
  intros _. apply (fuzzyLoop_consumed _ _ 0 0). now rewrite E.
Qed.



(** C3. On the sample registry the query [zzz] occurs in no field of any
    server and is a subsequence of no name or description, yet the search
    returns the official server: the boost alone makes its score positive. *)
Theorem C3_result_without_textual_match :
  exists response st',
    @searchServers Example.plainLocale Example.sampleHost
      (Example.queryFor "zzz") Example.defaultOptions Example.sampleManager
    = (Ok response, st') /\
    nonEmptyQuery (Example.queryFor "zzz") /\
    exists r, In r (SearchResponse.results response) /\
      SearchResult.server r = Example.github /\
      textuallyMatches (SearchResult.server r) "zzz" = false /\
      SearchResult.matchedFields r = [] /\
      (SearchResult.score r == 2)%Q.
Proof.
  eexists. eexists. split; [vm_compute; reflexivity|].
  split; [vm_compute; discriminate|].
  eexists. split; [left; reflexivity|].
  repeat split; vm_compute; reflexivity.
Qed.

(** *** Pagination *)

(** C8, as stated, fails for a negative limit: on three matches
    [limit = -1] returns two entries, all but the last one. *)
Lemma C8_negative_limit :
  ~ paginates
      (@search Example.plainLocale Example.noFilters (Example.page 0 (-1))
         (MCPRegistry.servers Example.sampleRegistry))
      (@sortedResults Example.plainLocale Example.noFilters (Example.page 0 (-1))
         (MCPRegistry.servers Example.sampleRegistry))
      0 (-1).
Proof.
  intros [H _]. vm_compute in H. apply H. reflexivity.
Qed.

(** C8, amended. For every call of [searchServers] whose offset and limit
    are not negative, the results are at most [limit] entries taken from
    the sorted, scored matches starting at [offset]; [total] is the number
    of matches before pagination; [hasMore] holds exactly when
    [offset + limit < total]. *)
Theorem C8_pagination {L : Locale} h f o st response st' :
  searchServers h f o st = (Ok response, st') ->
  0 <= offsetOf o -> 0 <= limitOf o ->
  exists r, registry st' = Some r /\
    paginates response (sortedResults f o (MCPRegistry.servers r))
      (offsetOf o) (limitOf o).
Proof.
  intros Hs Ho Hl.
  apply searchServers_Ok in Hs as (reg & Hreg & ->).
  exists reg. split; [assumption|].
  unfold paginates, search. cbn.
  repeat split.
  - now apply Array_slice_length_le.
  - now apply Array_slice_nonneg.
  - intros H. now apply Z.ltb_lt.
  - intros H. now apply Z.ltb_lt.
Qed.

Lemma C8_pagination_witness :
  0 <= offsetOf (Example.page 1 1) /\ 0 <= limitOf (Example.page 1 1) /\
  exists r, registry Example.sampleManager = Some r /\
    paginates
      (@search Example.plainLocale Example.noFilters (Example.page 1 1)
         (MCPRegistry.servers Example.sampleRegistry))
      (@sortedResults Example.plainLocale Example.noFilters (Example.page 1 1)
         (MCPRegistry.servers r))
      1 1.
Proof.
  split; [vm_compute; discriminate|]. split; [vm_compute; discriminate|].
  apply (@C8_pagination Example.plainLocale Example.sampleHost Example.noFilters
           (Example.page 1 1) Example.sampleManager _ Example.sampleManager).
  - reflexivity.
  - vm_compute; discriminate.
  - vm_compute; discriminate.
Defined.

(** *** The loaded collection *)

Section ReadOperations.
Context {L : Locale}.


(** A method of the shape "make sure it is loaded, read, return" leaves
    the fields as [ensureLoaded] left them. *)
Lemma read_only_method {A} h (result : MCPRegistry.t -> A) st :
  snd ((ensureLoaded h;; r ← loaded; mret (result r)) st) =
  snd (ensureLoaded h st).
Proof.
  unfold mbind, M_bind, mret, M_ret, loaded.
  destruct (ensureLoaded h st) as [[[]|e] st1]; cbn; [|reflexivity].
  destruct (registry st1); reflexivity.
Qed.

Lemma after_is_ensureLoaded h op st :
  after h op st = snd (ensureLoaded h st).
Proof.
  destruct op; cbn [after];
    unfold getServer, getAllServers, searchServers, getServersByCategory,
      getServersByTag, getStats, getMetadata;
    apply read_only_method.
Qed.



End ReadOperations.




End RegistryFacts.

(** ** The agent adapters *)

Module AdapterFacts.
Import Adapters Claims.

Section WithNode.
Context {N : Node}.

(** Looking for the configuration file only reads the file system. *)
Lemma firstExisting_reads candidates fs :
  exists found, firstExisting candidates fs = (Ok found, fs).
Proof.
  induction candidates as [|p rest IH]; cbn.
  - eauto.
  - unfold mbind, IO_bind, pathExists. cbn.
    destruct (bool_decide (is_Some (files fs !! p))); [eauto|exact IH].
Qed.


Lemma firstExisting_some candidates fs p :
  firstExisting candidates fs = (Ok (Some p), fs) ->
  In p candidates /\ is_Some (files fs !! p).
Proof.
  induction candidates as [|q rest IH]; cbn; [discriminate|].
  unfold mbind, IO_bind, pathExists. cbn.
  destruct (bool_decide (is_Some (files fs !! q))) eqn:E.
  - intros [= <-]. apply bool_decide_eq_true in E. auto.
  - intros H. destruct (IH H). auto.
Qed.

(** [read] leaves the file system as it is. *)
Lemma read_reads a scope fs :
  exists outcome, read a scope fs = (outcome, fs).
Proof.
  unfold read, findConfigFile, mbind, IO_bind.
  destruct (firstExisting_reads (checkPaths (name a) scope) fs) as [found ->].
  destruct found as [configPath|]; [|cbn; eauto].
  unfold try_catch, readFile, mbind, IO_bind, mret, IO_ret, throw.
  destruct (files fs !! configPath) as [content|]; cbn.
  - destruct (JS.truthy_string (JS.trim content)); cbn; [|eauto].
    destruct (JSON_parse content) as [config|]; cbn; [|eauto].
    destruct (ValidationResult.valid (validate a config)); cbn; eauto.
  - eauto.
Qed.

(** [write] either throws and leaves the file system as it is, or creates
    the directory and writes the file. *)
Lemma write_cases a config scope fs :
  (ValidationResult.valid (validate a config) = false /\
   exists e, write a config scope fs = (Err e, fs)) \/
  (ValidationResult.valid (validate a config) = true /\
   write a config scope fs =
     (Ok tt,
      {| files := <[getConfigPath a scope := JSON_stringify2 config]> (files fs);
         log := (log fs ++ [Mkdir (path_dirname (getConfigPath a scope))])
                ++ [WriteFile (getConfigPath a scope) (JSON_stringify2 config)] |})).
Proof.
  unfold write, try_catch, throw, mbind, IO_bind, ensureDir, writeFile.
  destruct (ValidationResult.valid (validate a config)); cbn; eauto.
Qed.

(** C5. For every adapter and every configuration that fails the
    adapter's validation, [write] throws and leaves the file system as it
    was: no directory is created and no file is written. The file is
    therefore rewritten only for a configuration that validates. *)
Theorem C5_write_rejects_invalid a config scope fs :
  ValidationResult.valid (validate a config) = false ->
  exists e, write a config scope fs = (Err e, fs).
Proof.
  intros Hinvalid.
  destruct (write_cases a config scope fs) as [[_ H]|[H _]]; [exact H|congruence].
Qed.

(** For the base class, failing validation is failing the schema. *)
Lemma BaseAgentAdapter_validate_valid schema config :
  ValidationResult.valid (BaseAgentAdapter_validate schema config) =
  ZodSchema.accepts schema config.
Proof.
  unfold BaseAgentAdapter_validate. now destruct (ZodSchema.accepts schema config).
Qed.

(** The override of the Claude adapter rejects what the schema rejects. *)
Lemma claudeValidate_schema config :
  ZodSchema.accepts claudeConfigSchema config = false ->
  ValidationResult.valid (claudeValidate config) = false.
Proof.
  intros H. unfold claudeValidate.
  rewrite BaseAgentAdapter_validate_valid, H. cbn.
  now rewrite BaseAgentAdapter_validate_valid.
Qed.


(** The empty configuration of the Claude adapter holds no server. *)
Lemma claude_empty_configuration :
  extractServers ClaudeAdapter (createConfigWithServers ClaudeAdapter []) = [].
Proof. reflexivity. Qed.

(** *** Effects of the destructive operations *)

Lemma effectsOf_appended {A} (m : IO A) fs outcome files' new :
  m fs = (outcome, {| files := files'; log := (log fs ++ new)%list |}) ->
  effectsOf m fs = new.
Proof.
  intros H. unfold effectsOf. rewrite H. cbn. apply drop_app_length.
Qed.

Lemma effectsOf_unchanged {A} (m : IO A) fs outcome :
  m fs = (outcome, fs) -> effectsOf m fs = [].
Proof.
  intros H. unfold effectsOf. rewrite H. cbn. apply drop_all.
Qed.

(** "Read, compute, then write or return", inside a [try]. *)
Lemma read_then_write a scope (next : json -> IO unit) (wrap : JsError -> JsError) fs :
  (forall config fs0,
     next config fs0 = (Ok tt, fs0) \/
     exists newConfig, next config fs0 = write a newConfig scope fs0) ->
  untouched_or_rewritten a scope fs
    (snd (try_catch (config ← read a scope; next config)
                    (fun error => throw (wrap error)) fs)).
Proof.
  intros Hnext. unfold try_catch, mbind, IO_bind, throw.
  destruct (read_reads a scope fs) as [[config|e] ->]; cbn; [|now left].
  destruct (Hnext config fs) as [->|[newConfig ->]]; cbn; [now left|].
  destruct (write_cases a newConfig scope fs) as [[_ [e ->]]|[_ ->]]; cbn.
  - now left.
  - right. eexists. rewrite <- app_assoc. reflexivity.
Qed.

Lemma perform_untouched_or_rewritten a op scope fs :
  untouched_or_rewritten a scope fs (snd (perform a op scope fs)).
Proof.
  destruct op; cbn [perform]; unfold updateServer;
    unfold addServer, removeServer, mergeConfig;
    apply read_then_write; intros config fs0; cbv zeta.
  - right. eauto.
  - destruct (prop_truthy _ _); [right; eauto|now left].
  - right. eauto.
  - right. eauto.
Qed.

Lemma perform_effects a op scope fs :
  effectsOf (perform a op scope) fs = [] \/
  exists content,
    effectsOf (perform a op scope) fs =
      [Mkdir (path_dirname (getConfigPath a scope));
       WriteFile (getConfigPath a scope) content].
Proof.
  destruct (perform_untouched_or_rewritten a op scope fs) as [H|[content H]].
  - left. apply (effectsOf_unchanged _ _ (fst (perform a op scope fs))).
    rewrite <- H at 3. apply surjective_pairing.
  - right. exists content.
    eapply (effectsOf_appended _ _ (fst (perform a op scope fs))).
    rewrite <- H. apply surjective_pairing.
Qed.

(** What [backup] does: on success one snapshot is written, whose metadata
    carry the checksum of the configuration and the time; on failure
    nothing is done. *)
Lemma backup_effects a scope fs :
  match backup a scope fs with
  | (Ok backupPath, fs') =>
      exists configPath text config,
        findConfigFile (name a) scope fs = (Ok (Some configPath), fs) /\
        files fs !! configPath = Some text /\
        JSON_parse text = Some config /\
        backupPath = backupPathOf (name a) scope /\
        let metadata :=
          backupMetadata (backupIdOf (name a) scope) (name a) scope configPath config in
        property metadata "checksum"
          = Some (JStr (calculateChecksum (JSON_stringify config))) /\
        property metadata "timestamp" = Some (JStr toISOString_now) /\
        effectsOf (backup a scope) fs =
          [Mkdir getBackupDir;
           WriteFile backupPath (JSON_stringify2 (backupData metadata config))]
  | (Err _, fs') => fs' = fs
  end.
Proof.
  destruct (backup a scope fs) as [outcome fs'] eqn:Hrun.
  revert Hrun.
  unfold backup, createBackup, loadAgentConfig, findConfigFile,
    try_catch, mbind, IO_bind, mret, IO_ret, throw.
  destruct (firstExisting_reads (checkPaths (name a) scope) fs) as [found Hfound].
  rewrite Hfound.
  destruct found as [configPath|]; cbn; [|now intros [= <- <-]].
  rewrite Hfound. cbn. unfold readFile.
  destruct (files fs !! configPath) as [text|] eqn:Htext; cbn;
    [|now intros [= <- <-]].
  destruct (JSON_parse text) as [config|] eqn:Hparse; cbn;
    [|now intros [= <- <-]].
  intros [= <- <-].
  exists configPath, text, config. repeat split; try assumption; try reflexivity.
  cbv zeta.
  eapply (effectsOf_appended _ _ (Ok (backupPathOf (name a) scope))).
  unfold backup, createBackup, loadAgentConfig, findConfigFile,
    try_catch, mbind, IO_bind, mret, IO_ret, throw.
  rewrite Hfound. cbn. rewrite Hfound. cbn. unfold readFile.
  rewrite Htext. cbn. rewrite Hparse. cbn.
  rewrite <- app_assoc. reflexivity.
Qed.

(** C4, amended. No destructive operation (addServer, removeServer,
    updateServer, mergeConfig) creates a backup snapshot: each does
    nothing to the file system, or creates the directory of the
    configuration file and writes that file, and nothing else. A snapshot
    with its metadata (checksum and timestamp) is written only by the
    explicit [backup] operation, which writes nothing but the snapshot. *)
Theorem C4_backup_only_on_request a op scope fs :
  (effectsOf (perform a op scope) fs = [] \/
   exists content,
     effectsOf (perform a op scope) fs =
       [Mkdir (path_dirname (getConfigPath a scope));
        WriteFile (getConfigPath a scope) content]) /\
  match backup a scope fs with
  | (Ok backupPath, fs') =>
      exists configPath text config,
        findConfigFile (name a) scope fs = (Ok (Some configPath), fs) /\
        files fs !! configPath = Some text /\
        JSON_parse text = Some config /\
        backupPath = backupPathOf (name a) scope /\
        let metadata :=
          backupMetadata (backupIdOf (name a) scope) (name a) scope configPath config in
        property metadata "checksum"
          = Some (JStr (calculateChecksum (JSON_stringify config))) /\
        property metadata "timestamp" = Some (JStr toISOString_now) /\
        effectsOf (backup a scope) fs =
          [Mkdir getBackupDir;
           WriteFile backupPath (JSON_stringify2 (backupData metadata config))]
  | (Err _, fs') => fs' = fs
  end.
Proof.
  split; [apply perform_effects|apply backup_effects].
Qed.

End WithNode.

(** *** Own properties *)

Section OwnProperties.
Context {V : Type}.
Implicit Types (o : list (string * V)) (k : string) (v : V).

Lemma own_get_own_set_eq o k v : own_get k (own_set k v o) = Some v.
Proof.
  induction o as [|[k' v'] o IH]; cbn.
  - now rewrite String.eqb_refl.
  - destruct (String.eqb k' k) eqn:E; cbn; rewrite E; [reflexivity|exact IH].
Qed.

Lemma own_get_own_set_ne o k k' v :
  k <> k' -> own_get k' (own_set k v o) = own_get k' o.
Proof.
  intros Hne. induction o as [|[k0 v0] o IH]; cbn.
  - now rewrite (proj2 (String.eqb_neq k k')).
  - destruct (String.eqb k0 k) eqn:E; cbn.
    + apply String.eqb_eq in E. subst k0.
      now rewrite (proj2 (String.eqb_neq k k')).
    + destruct (String.eqb k0 k'); [reflexivity|exact IH].
Qed.

Lemma own_get_own_delete_eq o k : own_get k (own_delete k o) = None.
Proof.
  unfold own_delete. induction o as [|[k' v'] o IH]; cbn; [reflexivity|].
  destruct (String.eqb k' k) eqn:E; cbn; [exact IH|]. now rewrite E.
Qed.

Lemma own_get_own_delete_ne o k k' :
  k <> k' -> own_get k' (own_delete k o) = own_get k' o.
Proof.
  intros Hne. unfold own_delete. induction o as [|[k0 v0] o IH]; cbn; [reflexivity|].
  destruct (String.eqb k0 k) eqn:E; cbn.
  - apply String.eqb_eq in E. subst k0.
    now rewrite (proj2 (String.eqb_neq k k')).
  - now rewrite IH.
Qed.

Lemma own_get_not_key o k :
  ~ In k (map fst o) -> own_get k o = None.
Proof.
  induction o as [|[k' v'] o IH]; cbn; [reflexivity|]. intros H.
  rewrite (proj2 (String.eqb_neq k' k)) by tauto. apply IH. tauto.
Qed.

End OwnProperties.

Lemma own_get_assign_ne (o : Props) k k' v :
  k <> k' -> own_get k' (assign o k v) = own_get k' o.
Proof.
  intros Hne. unfold assign.
  destruct (own_get k o); [now apply own_get_own_set_ne|].
  destruct (String.eqb k "__proto__"); [reflexivity|now apply own_get_own_set_ne].
Qed.

Lemma own_get_assign_eq (o : Props) k v :
  inherited k = false -> own_get k (assign o k v) = Some v.
Proof.
  intros Hk. unfold assign.
  destruct (own_get k o); [apply own_get_own_set_eq|].
  destruct (String.eqb k "__proto__") eqn:E; [|apply own_get_own_set_eq].
  apply String.eqb_eq in E. subst k. discriminate.
Qed.

Lemma prop_truthy_assign_ne (o : Props) k k' v :
  k <> k' -> prop_truthy (assign o k v) k' = prop_truthy o k'.
Proof. intros Hne. unfold prop_truthy. now rewrite own_get_assign_ne. Qed.

(** *** Merging *)

(** An identifier that is not in the source keeps its current entry. *)
Lemma mergeServers_not_in_source source : forall current overwrite id,
  own_get id source = None ->
  own_get id (mergeServers current source overwrite) = own_get id current.
Proof.
  unfold mergeServers.
  induction source as [|[k v] source IH]; intros current overwrite id Hid; cbn;
    [reflexivity|].
  cbn in Hid. destruct (String.eqb k id) eqn:E; [discriminate|].
  apply String.eqb_neq in E.
  rewrite IH by assumption.
  destruct (negb (prop_truthy current k) || overwrite); [|reflexivity].
  now apply own_get_assign_ne.
Qed.

(** X29. What the code ensures for the identifiers of the source: outside the
    property names of [Object.prototype], and with current entries that
    are truthy (entries are objects in every schema of the repository),
    the merge has the precedence of the specification. *)
Lemma mergeServers_precedence source : forall current overwrite id v,
  NoDup (map fst source) ->
  own_get id source = Some v ->
  inherited id = false ->
  (forall c, own_get id current = Some c -> truthy c = true) ->
  own_get id (mergeServers current source overwrite) =
    match own_get id current with
    | Some c => Some (if overwrite then v else c)
    | None => Some v
    end.
Proof.
  induction source as [|[k w] source IH];
    intros current overwrite id v Hnodup Hid Hinh Htruthy; [discriminate|].
  cbn in Hid. inversion Hnodup as [|? ? Hfresh Hnodup']; subst.
  change (mergeServers current ((k, w) :: source) overwrite)
    with (mergeServers
            (if negb (prop_truthy current k) || overwrite
             then assign current k w else current) source overwrite).
  destruct (String.eqb k id) eqn:E.
  - apply String.eqb_eq in E. subst k. injection Hid as ->.
    rewrite mergeServers_not_in_source
      by (apply own_get_not_key; now rewrite <- list_elem_of_In).
    unfold prop_truthy. destruct (own_get id current) as [c|] eqn:Hc.
    + rewrite (Htruthy c eq_refl). cbn.
      destruct overwrite; [now apply own_get_assign_eq|assumption].
    + rewrite Hinh. cbn. now apply own_get_assign_eq.
  - apply String.eqb_neq in E.
    rewrite (IH _ overwrite id v Hnodup' Hid Hinh).
    + destruct (negb (prop_truthy current k) || overwrite);
        [now rewrite own_get_assign_ne|reflexivity].
    + intros c. destruct (negb (prop_truthy current k) || overwrite);
        [rewrite own_get_assign_ne by assumption|]; apply Htruthy.
Qed.

Section WithNode.
Context {N : Node}.

(** What [mergeConfig] writes: the merged servers, when the current
    configuration can be read and the merged one validates. *)
Lemma mergeConfig_writes a source scope overwrite fs current :
  read a scope fs = (Ok current, fs) ->
  let merged :=
    createConfigWithServers a
      (mergeServers (extractServers a current) (extractServers a source) overwrite) in
  ValidationResult.valid (validate a merged) = true ->
  effectsOf (mergeConfig a source scope overwrite) fs =
    [Mkdir (path_dirname (getConfigPath a scope));
     WriteFile (getConfigPath a scope) (JSON_stringify2 merged)].
Proof.
  intros Hread merged Hvalid.
  eapply (effectsOf_appended _ _ (Ok tt)).
  unfold mergeConfig, try_catch, mbind, IO_bind. rewrite Hread.
  fold merged.
  destruct (write_cases a merged scope fs) as [[H _]|[_ ->]]; [congruence|].
  rewrite <- app_assoc. reflexivity.
Qed.

(** X30. What the code ensures for an identifier that is absent and is not a
    property name of [Object.prototype]: nothing is written. *)
Lemma removeServer_absent a serverId scope fs config :
  read a scope fs = (Ok config, fs) ->
  own_get serverId (extractServers a config) = None ->
  inherited serverId = false ->
  removeServer a serverId scope fs = (Ok tt, fs).
Proof.
  intros Hread Habsent Hinh.
  unfold removeServer, try_catch, mbind, IO_bind. rewrite Hread.
  unfold prop_truthy. now rewrite Habsent, Hinh.
Qed.

End WithNode.

(** *** The Claude adapter on a Linux machine *)

(** The log of an operation that created the directory and rewrote the
    configuration file holds no snapshot before the rewrite. *)
Lemma rewrite_without_snapshot {N : Node} configPath dir content :
  ~ backsUpBeforeRewrite configPath [Mkdir dir; WriteFile configPath content].
Proof.
  intros Hclaim.
  specialize (Hclaim [Mkdir dir] content [] eq_refl).
  apply Exists_cons in Hclaim as [(p & metadata & config & Hwrite)|Hnone].
  - discriminate Hwrite.
  - now apply Exists_nil in Hnone.
Qed.

(** C4, as stated, fails. On a machine whose configuration file exists
    and holds one server, a backup is possible ([backup] succeeds), and
    yet adding a server rewrites the file, and removing the server
    rewrites it, with no snapshot written before: each operation creates
    the directory and writes the configuration file, and that is all. *)
Lemma C4_addServer_writes_no_snapshot :
  let entry := JObj [("command", JStr "npx")] in
  let current := claudeCreateConfigWithServers [("github", entry)] in
  let N := Example.linux [current] in
  let disk :=
    {| files := {[ "/home/dev/.claude/settings.json" := JSON_stringify current ]};
       log := [] |} in
  let add := perform ClaudeAdapter (OpAddServer "files" (Example.stdioServer "node")) user in
  let remove := perform ClaudeAdapter (OpRemoveServer "github") user in
  let added :=
    claudeCreateConfigWithServers
      [("github", entry);
       ("files", claudeTransformServerConfig "files" (Example.stdioServer "node") stdio)] in
  files disk !! getConfigPath ClaudeAdapter user = Some (JSON_stringify current) /\
  fst (backup ClaudeAdapter user disk) = Ok (backupPathOf claude user) /\
  fst (add disk) = Ok tt /\
  effectsOf add disk =
    [Mkdir "/home/dev/.claude";
     WriteFile (getConfigPath ClaudeAdapter user) (JSON_stringify2 added)] /\
  ~ backsUpBeforeRewrite (getConfigPath ClaudeAdapter user) (effectsOf add disk) /\
  fst (remove disk) = Ok tt /\
  effectsOf remove disk =
    [Mkdir "/home/dev/.claude";
     WriteFile (getConfigPath ClaudeAdapter user)
       (JSON_stringify2 (claudeCreateConfigWithServers []))] /\
  ~ backsUpBeforeRewrite (getConfigPath ClaudeAdapter user) (effectsOf remove disk).
Proof.
  intros entry current N disk add remove added.
  assert (Hadd : effectsOf add disk =
            [Mkdir "/home/dev/.claude";
             WriteFile (getConfigPath ClaudeAdapter user) (JSON_stringify2 added)])
    by (vm_compute; reflexivity).
  assert (Hremove : effectsOf remove disk =
            [Mkdir "/home/dev/.claude";
             WriteFile (getConfigPath ClaudeAdapter user)
               (JSON_stringify2 (claudeCreateConfigWithServers []))])
    by (vm_compute; reflexivity).
  split; [vm_compute; reflexivity|]. split; [vm_compute; reflexivity|].
  split; [vm_compute; reflexivity|]. split; [exact Hadd|].
  split; [rewrite Hadd; apply rewrite_without_snapshot|].
  split; [vm_compute; reflexivity|]. split; [exact Hremove|].
  rewrite Hremove. apply rewrite_without_snapshot.
Qed.

Lemma C5_write_rejects_invalid_witness :
  let N := Example.linux [] in
  ValidationResult.valid (validate ClaudeAdapter (JObj [("mcpServers", JStr "none")]))
  = false /\
  exists e,
    write ClaudeAdapter (JObj [("mcpServers", JStr "none")]) user Example.emptyDisk
    = (Err e, Example.emptyDisk).
Proof.
  intros N. split; [reflexivity|].
  apply (@C5_write_rejects_invalid N ClaudeAdapter
           (JObj [("mcpServers", JStr "none")]) user Example.emptyDisk).
  reflexivity.
Defined.


(** C7. Merging, without overwrite, a source whose only server is called
    [constructor] into an empty configuration adds nothing: the guard
    [!mergedServers[serverId]] reads the property inherited from
    [Object.prototype], takes the identifier for present and skips it. The
    file written holds no server. *)
Theorem C7_inherited_name_is_not_added :
  let N := Example.linux [] in
  let entry := JObj [("command", JStr "npx")] in
  let source := claudeCreateConfigWithServers [("constructor", entry)] in
  ValidationResult.valid (validate ClaudeAdapter source) = true /\
  own_get "constructor" (extractServers ClaudeAdapter source) = Some entry /\
  read ClaudeAdapter user Example.emptyDisk
    = (Ok (claudeCreateConfigWithServers []), Example.emptyDisk) /\
  mergeServers [] (extractServers ClaudeAdapter source) false = [] /\
  effectsOf (mergeConfig ClaudeAdapter source user false) Example.emptyDisk
    = [Mkdir "/home/dev/.claude";
       WriteFile "/home/dev/.claude/settings.json"
         (JSON_stringify2 (claudeCreateConfigWithServers []))].
Proof.
  intros N entry source. repeat split; vm_compute; reflexivity.
Qed.

(** C10. Removing the server [constructor], which the configuration does
    not hold, rewrites the file: the guard [servers[serverId]] finds the
    property inherited from [Object.prototype]. The file, which held the
    compact text, holds the indented text afterwards. *)
Theorem C10_inherited_name_rewrites_file :
  let empty := claudeCreateConfigWithServers [] in
  let N := Example.linux [empty] in
  let disk :=
    {| files := {[ "/home/dev/.claude/settings.json" := JSON_stringify empty ]};
       log := [] |} in
  read ClaudeAdapter user disk = (Ok empty, disk) /\
  own_get "constructor" (extractServers ClaudeAdapter empty) = None /\
  fst (removeServer ClaudeAdapter "constructor" user disk) = Ok tt /\
  effectsOf (removeServer ClaudeAdapter "constructor" user) disk
    = [Mkdir "/home/dev/.claude";
       WriteFile "/home/dev/.claude/settings.json" (JSON_stringify2 empty)] /\
  files (snd (removeServer ClaudeAdapter "constructor" user disk))
    !! "/home/dev/.claude/settings.json" = Some (JSON_stringify2 empty) /\
  JSON_stringify2 empty <> JSON_stringify empty.
Proof.
  intros empty N disk. repeat split; try (vm_compute; reflexivity).
  vm_compute. discriminate.
Qed.

End AdapterFacts.

(** ** More on the registry manager *)

Module RegistryCoverage.
Import Registry Claims Coverage ArrayFacts RegistryFacts.

(** *** Fuzzy matching *)

(** The loop uses up a pattern that is a subsequence of the text. *)
Lemma fuzzyLoop_subsequence text : forall pattern score consecutive,
  isSubsequence pattern text = true ->
  fst (fuzzyLoop text pattern score consecutive) = "".
Proof.
  induction text as [|c text IH]; intros [|p pattern] score consecutive; simpl;
    try reflexivity; try discriminate.
  destruct (Ascii.eqb c p); apply IH.
Qed.

(** Bounds on the score of the loop: a pattern that is used up earns at
    least one point for each of its characters, and no run of matches
    earns more than an unbroken one. *)
Lemma fuzzyLoop_bounds text : forall pattern score consecutive,
  0 <= consecutive ->
  let n := Z.of_nat (String.length pattern) in
  let final := snd (fuzzyLoop text pattern score consecutive) in
  (fst (fuzzyLoop text pattern score consecutive) = "" -> score + n <= final) /\
  2 * (final - score) <= 2 * n * consecutive + n * (n + 1).
Proof.
  induction text as [|c text IH]; intros [|p pattern] score consecutive Hc;
    cbn [fuzzyLoop fst snd String.length]; try (split; [intros H|]; try discriminate; lia).
  destruct (Ascii.eqb c p).
  - destruct (IH pattern (score + (consecutive + 1)) (consecutive + 1)) as [Hlow Hup];
      [lia|].
    cbv zeta in Hlow, Hup. split; [intros H; specialize (Hlow H)|]; nia.
  - destruct (IH (String p pattern) score 0) as [Hlow Hup]; [lia|].
    cbv zeta in Hlow, Hup. cbn [String.length] in Hlow, Hup.
    split; [exact Hlow|]. nia.
Qed.

(** X1. [fuzzyMatch] gives a positive score exactly when the pattern is
    not empty and occurs in the text as a subsequence. *)
Theorem fuzzyMatch_positive_iff pattern text :
  (0 < fuzzyMatch pattern text)%Q <->
  pattern <> "" /\ isSubsequence pattern text = true.
Proof.
  split.
  - intros H. split; [|now apply fuzzyMatch_positive].
    intros ->. inversion H.
  - intros [Hne Hsub]. unfold fuzzyMatch.
    destruct pattern as [|p pattern]; [congruence|].
    destruct text as [|c text]; [discriminate|].
    pose proof (fuzzyLoop_subsequence _ _ 0 0 Hsub) as Hrest.
    destruct (fuzzyLoop_bounds (String c text) (String p pattern) 0 0) as [Hlow _];
      [lia|].
    cbv zeta in Hlow. specialize (Hlow Hrest).
    destruct (fuzzyLoop (String c text) (String p pattern) 0 0) as [rest final].
    cbn [fst snd] in *. subst rest.
    unfold Qlt. cbn [Qnum Qden String.length] in *. lia.
Qed.

(** X2. The score of [fuzzyMatch] lies between 0 and half the length of
    the pattern plus one. *)
Theorem fuzzyMatch_range pattern text :
  (0 <= fuzzyMatch pattern text)%Q /\
  (fuzzyMatch pattern text <= (Z.of_nat (String.length pattern) + 1) # 2)%Q.
Proof.
  unfold fuzzyMatch.
  destruct pattern as [|p pattern]; [split; unfold Qle; cbn; lia|].
  destruct text as [|c text];
    [split; unfold Qle; cbn [Qnum Qden String.length]; lia|].
  destruct (fuzzyLoop_bounds (String c text) (String p pattern) 0 0) as [Hlow Hup];
    [lia|].
  cbv zeta in Hlow, Hup.
  destruct (fuzzyLoop (String c text) (String p pattern) 0 0) as [rest final].
  cbn [fst snd] in *.
  destruct rest; [|split; unfold Qle; cbn [Qnum Qden String.length]; lia].
  specialize (Hlow eq_refl).
  split; unfold Qle; cbn [Qnum Qden]; [lia|].
  rewrite Pos2Z.inj_pow || idtac.
  set (n := Z.of_nat (String.length (String p pattern))) in *.
  assert (Hn : Z.pos (Pos.of_nat (String.length (String p pattern))) = n).
  { subst n. cbn [String.length]. lia. }
  rewrite Hn. nia.
Qed.

(** A text that begins with the pattern earns the unbroken run. *)
Lemma fuzzyLoop_prefix pattern : forall rest score consecutive,
  fuzzyLoop (pattern ++ rest) pattern score consecutive =
  ("", score + Z.of_nat (String.length pattern) * consecutive
           + Z.of_nat (String.length pattern)
             * (Z.of_nat (String.length pattern) + 1) / 2).
Proof.
  induction pattern as [|p pattern IH]; intros rest score consecutive.
  - change ("" ++ rest) with rest. cbn [String.length Z.of_nat]. rewrite !Z.mul_0_l.
    change (0 / 2) with 0. rewrite !Z.add_0_r. destruct rest; reflexivity.
  - change (String p pattern ++ rest) with (String p (pattern ++ rest)).
    cbn [fuzzyLoop]. rewrite Ascii.eqb_refl, IH. f_equal.
    cbn [String.length].
    set (n := Z.of_nat (String.length pattern)).
    replace (Z.of_nat (S (String.length pattern))) with (n + 1) by lia.
    replace ((n + 1) * (n + 1 + 1)) with (n * (n + 1) + (n + 1) * 2) by ring.
    rewrite Z.div_add by lia. ring.
Qed.

(** X3. A text that begins with the pattern gets the highest score there
    is for that pattern, half its length plus one. *)
Theorem fuzzyMatch_prefix pattern rest :
  pattern <> "" ->
  (fuzzyMatch pattern (pattern ++ rest) ==
   (Z.of_nat (String.length pattern) + 1) # 2)%Q.
Proof.
  intros Hne. unfold fuzzyMatch.
  destruct pattern as [|p pattern]; [congruence|].
  destruct (String p pattern ++ rest) as [|c text] eqn:E; [discriminate|].
  rewrite <- E, fuzzyLoop_prefix.
  set (n := Z.of_nat (String.length (String p pattern))).
  assert (Hn : Z.pos (Pos.of_nat (String.length (String p pattern))) = n).
  { subst n. cbn [String.length]. lia. }
  unfold Qeq. cbn [Qnum Qden]. rewrite Hn.
  assert (Heven : n * (n + 1) = 2 * (n * (n + 1) / 2)).
  { apply Z_div_exact_2; [lia|].
    destruct (Z.Even_or_Odd n) as [[k Hk]|[k Hk]]; rewrite Hk.
    - replace (2 * k * (2 * k + 1)) with (k * (2 * k + 1) * 2) by ring.
      apply Z_mod_mult.
    - replace ((2 * k + 1) * (2 * k + 1 + 1)) with ((2 * k + 1) * (k + 1) * 2) by ring.
      apply Z_mod_mult. }
  lia.
Qed.

Lemma fuzzyMatch_prefix_witness :
  "git" <> "" /\ (fuzzyMatch "git" ("git" ++ "hub") == 4 # 2)%Q.
Proof.
  split; [discriminate|].
  exact (fuzzyMatch_prefix "git" "hub" ltac:(discriminate)).
Defined.

(** *** Sorting *)

Section Sorting.
Context {A : Type} (R : A -> A -> Prop) (cmp : A -> A -> comparison).
Hypothesis R_trans : forall x y z, R x y -> R y z -> R x z.
Hypothesis cmp_behind : forall x y, cmp x y = Gt -> R y x.
Hypothesis cmp_before : forall x y, cmp x y <> Gt -> R x y.

Lemma sort_insert_sorted x l :
  StronglySorted R l -> StronglySorted R (JS.sort_insert cmp x l).
Proof.
  induction 1 as [|y r Hsorted IH Hall]; cbn.
  - constructor; constructor.
  - destruct (cmp x y) eqn:E.
    + constructor; [now constructor|]. constructor.
      * apply cmp_before. congruence.
      * eapply Forall_impl; [exact Hall|]. intros z Hz.
        eapply R_trans; [|exact Hz]. apply cmp_before. congruence.
    + constructor; [now constructor|]. constructor.
      * apply cmp_before. congruence.
      * eapply Forall_impl; [exact Hall|]. intros z Hz.
        eapply R_trans; [|exact Hz]. apply cmp_before. congruence.
    + constructor; [exact IH|].
      apply List.Forall_forall. intros z Hz.
      apply (Permutation_in _ (sort_insert_perm cmp x r)) in Hz.
      destruct Hz as [<-|Hz]; [now apply cmp_behind|].
      rewrite List.Forall_forall in Hall. now apply Hall.
Qed.

Lemma Array_sort_sorted a : StronglySorted R (JS.Array_sort cmp a).
Proof.
  unfold JS.Array_sort. induction a as [|x a IH]; cbn.
  - constructor.
  - now apply sort_insert_sorted.
Qed.

End Sorting.

Lemma StronglySorted_skipn {A} (R : A -> A -> Prop) n l :
  StronglySorted R l -> StronglySorted R (skipn n l).
Proof.
  revert l. induction n as [|n IH]; intros l H; [exact H|].
  destruct H; cbn; [constructor|now apply IH].
Qed.

Lemma StronglySorted_firstn {A} (R : A -> A -> Prop) n l :
  StronglySorted R l -> StronglySorted R (firstn n l).
Proof.
  revert l. induction n as [|n IH]; intros l H; [constructor|].
  destruct H as [|x l Hs Hall]; cbn; [constructor|].
  constructor; [now apply IH|].
  apply List.Forall_forall. intros z Hz. apply In_firstn in Hz.
  rewrite List.Forall_forall in Hall. now apply Hall.
Qed.

Lemma Array_slice_sorted {A} (R : A -> A -> Prop) (a : list A) start stop :
  StronglySorted R a -> StronglySorted R (JS.Array_slice a start stop).
Proof.
  intros H. unfold JS.Array_slice.
  now apply StronglySorted_firstn, StronglySorted_skipn.
Qed.

(** X4. A page of results sorted by relevance or by downloads is in
    order: every entry stands before all entries with a lower key when
    the order is descending, with a higher key when it is ascending. *)
Theorem results_in_order {L : Locale} f o servers :
  match sortByOf o with
  | relevance =>
      StronglySorted (orderedBy Qle SearchResult.score (sortOrderOf o))
        (SearchResponse.results (search f o servers))
  | downloads =>
      StronglySorted
        (orderedBy Z.le (fun r => downloadsOf (SearchResult.server r)) (sortOrderOf o))
        (SearchResponse.results (search f o servers))
  | _ => True
  end.
Proof.
  unfold search, sortedResults. cbn [SearchResponse.results].
  destruct (sortByOf o); [| |exact I|exact I];
    apply Array_slice_sorted, Array_sort_sorted;
    unfold compareResults, orderedBy, downloadsOf, JS.sign_of_difference;
    destruct (sortOrderOf o).
  - intros x y z. apply Qle_trans.
  - intros x y z H1 H2. eapply Qle_trans; eassumption.
  - intros x y H. apply Qlt_le_weak. now apply Qgt_alt.
  - intros x y H. apply Qlt_le_weak. now apply Qgt_alt.
  - intros x y H. now apply Qle_alt.
  - intros x y H. now apply Qle_alt.
  - intros x y z. apply Z.le_trans.
  - intros x y z H1 H2. eapply Z.le_trans; eassumption.
  - intros x y H. apply Z.compare_gt_iff in H. lia.
  - intros x y H. apply Z.compare_gt_iff in H. lia.
  - intros x y H. now apply Z.compare_le_iff.
  - intros x y H. now apply Z.compare_le_iff.
Qed.

(** *** Searching *)


Lemma results_are_candidates_witness :
  let r := {| SearchResult.server := Example.files_;
              SearchResult.score := 23;
              SearchResult.matchedFields := ["name"; "title"; "description"] |} in
  In (SearchResult.server r) (MCPRegistry.servers Example.sampleRegistry) /\
  satisfiesEveryFilter (Example.queryFor "file") (SearchResult.server r).
Proof.
  intros r.
  apply (@results_are_candidates Example.plainLocale (Example.queryFor "file")
           Example.defaultOptions (MCPRegistry.servers Example.sampleRegistry) r).
  vm_compute. left; reflexivity.
Defined.

(** For a blank query the scored matches are the candidates, each with
    score 1. *)
Lemma blank_query_scored f o candidates :
  JS.trim (queryOf f) = "" ->
  scoredResults f o candidates =
    map (fun server =>
           {| SearchResult.server := server;
              SearchResult.score := 1%Q;
              SearchResult.matchedFields := [] |})
        candidates.
Proof. intros Hblank. unfold scoredResults. now rewrite Hblank. Qed.

(** X7. A blank query (empty, or white space only) scores nothing: the
    matches are the candidates, each with score 1 and no matched field,
    and [total] counts the candidates. *)
Theorem blank_query_returns_candidates {L : Locale} f o servers :
  JS.trim (queryOf f) = "" ->
  SearchResponse.total (search f o servers)
    = Z.of_nat (length (filteredServers f servers)) /\
  Permutation (map SearchResult.server (sortedResults f o servers))
              (filteredServers f servers) /\
  forall r, In r (SearchResponse.results (search f o servers)) ->
    SearchResult.score r = 1%Q /\ SearchResult.matchedFields r = [].
Proof.
  intros Hblank.
  assert (Hscored : scoredResults f o (filteredServers f servers) =
            map (fun server =>
                   {| SearchResult.server := server;
                      SearchResult.score := 1%Q;
                      SearchResult.matchedFields := [] |})
                (filteredServers f servers)).
  { unfold scoredResults. now rewrite Hblank. }
  repeat split.
  - unfold search, sortedResults. cbn [SearchResponse.total].
    now rewrite Array_sort_length, Hscored, length_map.
  - unfold sortedResults. rewrite Array_sort_perm, Hscored, map_map. cbn.
    now rewrite map_id.
  - apply search_results_scored in H. rewrite Hscored in H.
    apply in_map_iff in H as (s & <- & _). reflexivity.
  - apply search_results_scored in H. rewrite Hscored in H.
    apply in_map_iff in H as (s & <- & _). reflexivity.
Qed.

Lemma blank_query_returns_candidates_witness :
  SearchResponse.total
    (@search Example.plainLocale (Example.queryFor "   ") Example.defaultOptions
       (MCPRegistry.servers Example.sampleRegistry)) = 3.
Proof.
  exact (proj1 (@blank_query_returns_candidates Example.plainLocale
                  (Example.queryFor "   ") Example.defaultOptions
                  (MCPRegistry.servers Example.sampleRegistry) eq_refl)).
Defined.

(** *** Looking servers up *)

Section Lookups.
Context {L : Locale}.

(** What a method of the shape "make sure it is loaded, read, return"
    returns, and on which registry. *)
Lemma read_only_result {A} h (result : MCPRegistry.t -> A) st value st' :
  (ensureLoaded h;; r ← loaded; mret (result r)) st = (Ok value, st') ->
  exists r, registry st' = Some r /\ value = result r /\
            st' = snd (ensureLoaded h st).
Proof.
  unfold mbind, M_bind, mret, M_ret, loaded.
  destruct (ensureLoaded h st) as [[[]|e] st1]; [|discriminate].
  destruct (registry st1) as [r|] eqn:Hr; [|discriminate].
  intros [= <- <-]. eauto.
Qed.

(** X8. [getServer] returns a descriptor of the registry that has the
    identifier asked for, and returns [null] only when no descriptor of
    the registry has it. *)
Theorem getServer_finds h id st found st' :
  getServer h id st = (Ok found, st') ->
  exists r, registry st' = Some r /\
    match found with
    | Some s => In s (MCPRegistry.servers r) /\ MCPServer.id s = id
    | None => forall s, In s (MCPRegistry.servers r) -> MCPServer.id s <> id
    end.
Proof.
  intros H. apply read_only_result in H as (r & Hr & -> & _).
  exists r. split; [exact Hr|].
  destruct (find _ _) as [s|] eqn:E.
  - apply find_some in E as [Hin Heq]. split; [exact Hin|].
    now apply String.eqb_eq.
  - intros s Hin. apply (find_none _ _ E) in Hin. now apply String.eqb_neq.
Qed.

(** X9. For a category that is not the empty string, searching with that
    category as the only filter finds what [getServersByCategory]
    returns: the totals agree and every result is one of those servers.
    (For the empty string the search applies no filter at all.) *)
Theorem category_search_agrees h c o st servers response st1 st2 :
  c <> "" ->
  getServersByCategory h c st = (Ok servers, st1) ->
  searchServers h (categoryOnly c) o st = (Ok response, st2) ->
  SearchResponse.total response = Z.of_nat (length servers) /\
  forall r, In r (SearchResponse.results response) ->
    In (SearchResult.server r) servers.
Proof.
  intros Hc Hcat Hsearch.
  apply read_only_result in Hcat as (r & Hr & -> & ->).
  apply read_only_result in Hsearch as (r' & Hr' & -> & ->).
  rewrite Hr in Hr'. injection Hr' as <-.
  assert (Hsame : filteredServers (categoryOnly c) (MCPRegistry.servers r) =
            List.filter
              (fun server => bool_decide (MCPServer.category server = Some c))
              (MCPRegistry.servers r)).
  { unfold filteredServers. apply filter_ext. intros s.
    unfold matchesFilters. cbn.
    destruct c as [|ch c]; [congruence|]. cbn.
    now destruct (bool_decide (MCPServer.category s = Some (String ch c))). }
  split.
  - unfold search, sortedResults. cbn [SearchResponse.total].
    rewrite Array_sort_length,
      (blank_query_scored (categoryOnly c) o _ eq_refl), length_map.
    now rewrite Hsame.
  - intros x Hx. rewrite <- Hsame.
    apply search_results_scored in Hx. revert Hx.
    unfold scoredResults. cbn. rewrite in_map_iff.
    now intros (s & <- & Hs).
Qed.

End Lookups.

Lemma getServer_finds_witness :
  exists r, registry Example.sampleManager = Some r /\
    In Example.mysql (MCPRegistry.servers r) /\
    MCPServer.id Example.mysql = "mysql".
Proof.
  exact (getServer_finds Example.sampleHost "mysql"
           Example.sampleManager (Some Example.mysql) Example.sampleManager eq_refl).
Defined.

Lemma category_search_agrees_witness :
  SearchResponse.total
    (@search Example.plainLocale (categoryOnly "Development") Example.defaultOptions
       (MCPRegistry.servers Example.sampleRegistry)) = Z.of_nat 3.
Proof.
  exact (proj1 (@category_search_agrees Example.plainLocale Example.sampleHost
                  "Development" Example.defaultOptions Example.sampleManager
                  (MCPRegistry.servers Example.sampleRegistry) _
                  Example.sampleManager Example.sampleManager
                  ltac:(discriminate) eq_refl eq_refl)).
Defined.

(** *** Statistics *)

Section Tallies.
Context {K : Type} `{EqDecision K}.

Lemma tallyOf_bump_same (k : K) acc : tallyOf k (bump k acc) = tallyOf k acc + 1.
Proof.
  unfold tallyOf. induction acc as [|[k' n] acc IH]; cbn.
  - rewrite bool_decide_eq_true_2 by reflexivity. reflexivity.
  - destruct (bool_decide (k' = k)) eqn:E; cbn; rewrite E; [reflexivity|exact IH].
Qed.

Lemma tallyOf_bump_other (k k' : K) acc :
  k <> k' -> tallyOf k' (bump k acc) = tallyOf k' acc.
Proof.
  intros Hne. unfold tallyOf. induction acc as [|[k0 n] acc IH]; cbn.
  - rewrite bool_decide_eq_false_2 by assumption. reflexivity.
  - destruct (bool_decide (k0 = k)) eqn:E; cbn.
    + apply bool_decide_eq_true in E. subst k0.
      rewrite bool_decide_eq_false_2 by assumption. reflexivity.
    + destruct (bool_decide (k0 = k')); [reflexivity|exact IH].
Qed.

(** Tallying a list of keys counts the occurrences of each key. *)
Lemma tallyOf_fold (k : K) (keys : list K) : forall acc,
  tallyOf k (fold_left (fun acc key => bump key acc) keys acc) =
  tallyOf k acc + Z.of_nat (length (List.filter (fun key => bool_decide (key = k)) keys)).
Proof.
  induction keys as [|key keys IH]; intros acc; cbn; [lia|].
  rewrite IH. destruct (bool_decide (key = k)) eqn:E.
  - apply bool_decide_eq_true in E. subst key.
    rewrite tallyOf_bump_same. cbn [length]. lia.
  - apply bool_decide_eq_false in E. rewrite tallyOf_bump_other by assumption. lia.
Qed.

End Tallies.

Lemma fold_left_map {A B C} (f : C -> B -> C) (g : A -> B) (l : list A) : forall acc,
  fold_left (fun acc x => f acc (g x)) l acc = fold_left f (map g l) acc.
Proof. induction l as [|x l IH]; intros acc; cbn; [reflexivity|apply IH]. Qed.

Lemma filter_map_length {A B} (g : A -> B) (P : B -> bool) (l : list A) :
  length (List.filter P (map g l)) = length (List.filter (fun x => P (g x)) l).
Proof.
  induction l as [|x l IH]; cbn; [reflexivity|].
  destruct (P (g x)); cbn; now rewrite IH.
Qed.

Section Statistics.
Context {L : Locale}.

(** X10. In the statistics, [totalServers] is the number of descriptors,
    and the tally read for a classification is the number of descriptors
    of that classification (zero when there is no entry for it). *)
Theorem getStats_counts_classifications h st stats st' :
  getStats h st = (Ok stats, st') ->
  exists r, registry st' = Some r /\
    RegistryStats.totalServers stats = Z.of_nat (length (MCPRegistry.servers r)) /\
    forall c,
      tallyOf c (RegistryStats.byClassification stats) =
      Z.of_nat (length (List.filter
                          (fun s => bool_decide (MCPServer.classification s = c))
                          (MCPRegistry.servers r))).
Proof.
  intros H. unfold getStats in H.
  apply read_only_result in H as (r & Hr & -> & _).
  exists r. split; [exact Hr|]. cbv zeta. cbn [RegistryStats.totalServers
    RegistryStats.byClassification]. split; [reflexivity|].
  intros c.
  rewrite (fold_left_map (fun acc key => bump key acc) MCPServer.classification).
  rewrite tallyOf_fold. cbn. now rewrite filter_map_length.
Qed.

(** X11. The most popular servers are at most ten descriptors of the
    registry, in descending order of downloads, and the trending ones are
    the first five of them. *)
Theorem getStats_most_popular h st stats st' :
  getStats h st = (Ok stats, st') ->
  exists r, registry st' = Some r /\
    (length (RegistryStats.mostPopular stats) <= 10)%nat /\
    (forall s, In s (RegistryStats.mostPopular stats) -> In s (MCPRegistry.servers r)) /\
    StronglySorted (fun a b => downloadsOf b <= downloadsOf a)
      (RegistryStats.mostPopular stats) /\
    RegistryStats.trending stats = firstn 5 (RegistryStats.mostPopular stats).
Proof.
  intros H. unfold getStats in H.
  apply read_only_result in H as (r & Hr & -> & _).
  exists r. split; [exact Hr|]. cbv zeta.
  cbn [RegistryStats.mostPopular RegistryStats.trending].
  repeat split.
  - match goal with
    | |- (length (JS.Array_slice ?sorted 0 10) <= 10)%nat =>
        pose proof (Array_slice_length_le sorted 0 10 ltac:(lia) ltac:(lia)) as Hle
    end.
    change (0 + 10) with 10 in Hle. lia.
  - intros s Hs. apply Array_slice_In in Hs. now apply Array_sort_In in Hs.
  - apply Array_slice_sorted, Array_sort_sorted; unfold downloadsOf.
    + intros x y z H1 H2. lia.
    + intros x y Hgt. apply Z.compare_gt_iff in Hgt. lia.
    + intros x y Hle. now apply Z.compare_le_iff.
  - apply (Array_slice_nonneg _ 0 5); lia.
Qed.

(** X12. When the copy has to be loaded and the registry file cannot be
    read or parsed, every read operation throws "Failed to load MCP
    registry" with the cause, and the manager keeps what it had. *)
Theorem read_operations_fail_to_load h op st e :
  mustLoad h st ->
  registryFile h = Err e ->
  errorOf h op st = Some (Error ("Failed to load MCP registry: " ++ message e)) /\
  after h op st = st.
Proof.
  intros Hmust Hfile.
  assert (Hload : ensureLoaded h st =
            (Err (Error ("Failed to load MCP registry: " ++ message e)), st)).
  { unfold ensureLoaded, loadRegistry. rewrite Hfile.
    destruct Hmust as [->|[Hl|(t & Ht & Hstale)]].
    - reflexivity.
    - rewrite Hl. now destruct (registry st).
    - rewrite Ht. destruct (registry st); [|reflexivity].
      destruct (Z.ltb_spec (5 * 60 * 1000) (clock h - t)); [reflexivity|lia]. }
  split.
  - destruct op; cbn [errorOf];
      unfold getServer, getAllServers, searchServers, getServersByCategory,
        getServersByTag, getStats, getMetadata, mbind, M_bind;
      rewrite Hload; reflexivity.
  - rewrite after_is_ensureLoaded, Hload. reflexivity.
Qed.


End Statistics.

Lemma getStats_counts_classifications_witness :
  exists r, registry Example.sampleManager = Some r /\
    3 = Z.of_nat (length (MCPRegistry.servers r)).
Proof.
  destruct (@getStats_counts_classifications Example.plainLocale Example.sampleHost
              Example.sampleManager _ Example.sampleManager eq_refl)
    as (r & Hr & Htotal & _).
  exists r. split; [exact Hr|exact Htotal].
Defined.

Lemma getStats_most_popular_witness :
  exists r, registry Example.sampleManager = Some r /\
    forall s,
      In s [Example.mysql; Example.files_; Example.github] ->
      In s (MCPRegistry.servers r).
Proof.
  destruct (@getStats_most_popular Example.plainLocale Example.sampleHost
              Example.sampleManager _ Example.sampleManager eq_refl)
    as (r & Hr & _ & Hin & _).
  exists r. split; [exact Hr|exact Hin].
Defined.

(** Nothing is loaded and the file is missing. *)
Lemma read_operations_fail_to_load_witness :
  let h := {| clock := 0; registryFile := Err (Error "ENOENT") |} in
  let st := {| registry := None; lastLoaded := None |} in
  mustLoad h st /\
  @errorOf Example.plainLocale h OpGetAllServers st
    = Some (Error "Failed to load MCP registry: ENOENT").
Proof.
  intros h st.
  assert (Hmust : mustLoad h st) by (left; reflexivity).
  split; [exact Hmust|].
  exact (proj1 (@read_operations_fail_to_load Example.plainLocale h OpGetAllServers
                  st (Error "ENOENT") Hmust eq_refl)).
Defined.

(** *** Download counts *)

Lemma digit_untouched c :
  isDigit c = true ->
  JS.lower_unit c = c /\ JS.isWhiteSpace c = false /\ Ascii.eqb c "," = false.
Proof.
  destruct c as [[] [] [] [] [] [] [] []]; intros H; try discriminate H;
    repeat split; reflexivity.
Qed.

Lemma digits_untouched d :
  allDigits d = true -> JS.stripSeparators (JS.toLowerCase d) = d.
Proof.
  induction d as [|c d IH]; cbn; [reflexivity|].
  intros H. apply andb_true_iff in H as [Hc Hd].
  destruct (digit_untouched c Hc) as (-> & -> & ->). cbn. now rewrite IH.
Qed.

Lemma toLowerCase_app a b :
  JS.toLowerCase (a ++ b) = JS.toLowerCase a ++ JS.toLowerCase b.
Proof.
  induction a as [|c a IH]; [reflexivity|].
  change (String c a ++ b) with (String c (a ++ b)). cbn [JS.toLowerCase].
  rewrite IH. reflexivity.
Qed.

Lemma stripSeparators_app a b :
  JS.stripSeparators (a ++ b) = JS.stripSeparators a ++ JS.stripSeparators b.
Proof.
  induction a as [|c a IH]; [reflexivity|].
  change (String c a ++ b) with (String c (a ++ b)). cbn [JS.stripSeparators].
  rewrite IH. now destruct (Ascii.eqb c "," || JS.isWhiteSpace c).
Qed.

Lemma endsWith_last d c c' :
  JS.endsWith (d ++ String c "") (String c' "") = Ascii.eqb c c'.
Proof.
  induction d as [|x d IH].
  - change ("" ++ String c "") with (String c ""). cbn.
    destruct (Ascii.eqb c c'); reflexivity.
  - change (String x d ++ String c "") with (String x (d ++ String c "")).
    cbn [JS.endsWith]. rewrite IH.
    replace (String.eqb (String x (d ++ String c "")) (String c' "")) with false;
      [reflexivity|].
    cbn. destruct (Ascii.eqb x c'); [|reflexivity].
    destruct d; reflexivity.
Qed.

Lemma dropLast_last d c : JS.dropLast (d ++ String c "") = d.
Proof.
  induction d as [|x d IH]; [reflexivity|].
  change (String x d ++ String c "") with (String x (d ++ String c "")).
  cbn [JS.dropLast]. rewrite IH. now destruct d.
Qed.

Lemma endsWith_among_digits d c :
  allDigits d = true -> JS.endsWith d (String c "") = true -> isDigit c = true.
Proof.
  induction d as [|x d IH]; cbn; [discriminate|].
  intros H. apply andb_true_iff in H as [Hx Hd].
  destruct (Ascii.eqb x c) eqn:E.
  - apply Ascii.eqb_eq in E. now subst.
  - cbn. now apply IH.
Qed.

Lemma digits_plain d :
  allDigits d = true -> d <> "" ->
  parseDownloads d = JS.or_zero (JS.parseInt d).
Proof.
  intros Hd Hne. unfold parseDownloads.
  destruct d as [|c d]; [congruence|]. cbn [JS.truthy_string negb orb].
  assert (Hna : String.eqb (String c d) "N/A" = false).
  { cbn. destruct (Ascii.eqb c "N") eqn:E; [|reflexivity].
    apply Ascii.eqb_eq in E. subst c. discriminate Hd. }
  rewrite Hna, (digits_untouched _ Hd).
  assert (Hend : forall x, isDigit x = false ->
                           JS.endsWith (String c d) (String x "") = false).
  { intros x Hx. destruct (JS.endsWith (String c d) (String x "")) eqn:E;
      [|reflexivity].
    apply (endsWith_among_digits _ _ Hd) in E. congruence. }
  now rewrite !Hend by reflexivity.
Qed.

(** The count read from digits followed by a unit. *)
Lemma digits_with_unit d (unit_ : ascii) :
  allDigits d = true -> d <> "" ->
  isDigit unit_ = false -> JS.isWhiteSpace unit_ = false ->
  Ascii.eqb unit_ "," = false ->
  JS.stripSeparators (JS.toLowerCase (d ++ String unit_ ""))
    = d ++ String (JS.lower_unit unit_) "" /\
  JS.truthy_string (d ++ String unit_ "") = true /\
  String.eqb (d ++ String unit_ "") "N/A" = false.
Proof.
  intros Hd Hne Hu Hw Hcomma. repeat split.
  - rewrite toLowerCase_app, stripSeparators_app, (digits_untouched _ Hd).
    f_equal. cbn.
    destruct unit_ as [[] [] [] [] [] [] [] []];
      try discriminate Hu; try discriminate Hw; try discriminate Hcomma; reflexivity.
  - destruct d; [congruence|reflexivity].
  - destruct d as [|c d]; [congruence|].
    change (String c d ++ String unit_ "") with (String c (d ++ String unit_ "")).
    cbn. destruct (Ascii.eqb c "N") eqn:E; [|reflexivity].
    apply Ascii.eqb_eq in E. subst c. discriminate Hd.
Qed.

(** X14. A count written in decimal digits and followed by [k] or [K]
    is read as so many thousands, followed by [m] or [M] as so many
    millions, and followed by [+] as the count itself. *)
Theorem parseDownloads_units d :
  allDigits d = true -> d <> "" ->
  parseDownloads (d ++ "k") = parseDownloads d * 1000 /\
  parseDownloads (d ++ "K") = parseDownloads d * 1000 /\
  parseDownloads (d ++ "m") = parseDownloads d * 1000000 /\
  parseDownloads (d ++ "M") = parseDownloads d * 1000000 /\
  parseDownloads (d ++ "+") = parseDownloads d.
Proof.
  intros Hd Hne. rewrite (digits_plain d Hd Hne).
  repeat split; unfold parseDownloads;
    match goal with
    | |- context [d ++ String ?u ""] =>
        destruct (digits_with_unit d u Hd Hne eq_refl eq_refl eq_refl)
          as (-> & -> & ->)
    end;
    cbn [negb orb]; rewrite !endsWith_last, dropLast_last; reflexivity.
Qed.

Lemma parseDownloads_units_witness :
  allDigits "15" = true /\ "15" <> "" /\ parseDownloads ("15" ++ "K") = 15000.
Proof.
  split; [reflexivity|]. split; [discriminate|].
  exact (proj1 (proj2 (parseDownloads_units "15" eq_refl ltac:(discriminate)))).
Defined.

(** *** Matched fields *)

Lemma getMatchedFields_weight server query :
  (totalWeight (getMatchedFields server query) == substringWeights server query)%Q.
Proof.
  unfold getMatchedFields, substringWeights, tagContains, contains, someTagIncludes.
  set (a := JS.includes (JS.toLowerCase (MCPServer.name server)) _). clearbody a.
  set (b := JS.includes (JS.toLowerCase (MCPServer.title server)) _). clearbody b.
  set (c := JS.includes (JS.toLowerCase (MCPServer.description server)) _). clearbody c.
  set (d := JS.includes (JS.toLowerCase (MCPServer.maintainer server)) _). clearbody d.
  set (e := existsb _ _). clearbody e.
  destruct a, b, c, d, e; reflexivity.
Qed.

(** X6. The fields a result lists as matched are the fields its score
    counts: for a query that is not blank, the weights of the result's
    [matchedFields] (name 10, title 8, description 5, maintainer 3, tags 4)
    add up to the substring part of its score, so the score is that sum plus
    the fuzzy bonus and the two boosts. *)
Theorem matchedFields_carry_the_score {L : Locale} f o servers r :
  nonEmptyQuery f ->
  In r (SearchResponse.results (search f o servers)) ->
  let server := SearchResult.server r in
  (SearchResult.score r ==
     totalWeight (SearchResult.matchedFields r)
     + fuzzyBonus server (queryOf f) (fuzzyOf o)
     + popularityBoost server + officialBoost server)%Q.
Proof.
  intros Hq Hin server. apply search_results_scored in Hin.
  assert (Hr : SearchResult.score r =
                 calculateRelevanceScore server (queryOf f) (fuzzyOf o) /\
               SearchResult.matchedFields r = getMatchedFields server (queryOf f)).
  { revert Hin. unfold nonEmptyQuery in Hq. unfold scoredResults.
    destruct (JS.trim (queryOf f)); [congruence|]. cbn [JS.truthy_string].
    rewrite filter_In, in_map_iff. intros [(srv & <- & _) _]. now split. }
  destruct Hr as [-> ->].
  rewrite calculateRelevanceScore_weighted, getMatchedFields_weight.
  unfold weightedScore. reflexivity.
Qed.

Lemma matchedFields_carry_the_score_witness :
  let r := {| SearchResult.server := Example.files_;
              SearchResult.score := 23;
              SearchResult.matchedFields := ["name"; "title"; "description"] |} in
  (SearchResult.score r == 10 + (8 + (5 + 0)) + 0 + 0 + 0)%Q.
Proof.
  intros r.
  apply (@matchedFields_carry_the_score Example.plainLocale (Example.queryFor "file")
           Example.defaultOptions (MCPRegistry.servers Example.sampleRegistry) r).
  - vm_compute. discriminate.
  - vm_compute. left. reflexivity.
Defined.

End RegistryCoverage.

(** ** More on the agent adapters *)

Module AdapterCoverage.
Import Adapters Claims Coverage AdapterFacts.

Section WithNode.
Context {N : Node}.

(** *** Finding the configuration file *)

(** X15. [findConfigFile] changes nothing and returns the first of the
    places it looks at where a file exists, in their order (for the
    project scope the project path, then the user path; otherwise the user
    path, then the alternatives); it returns [null] only when there is a
    file at none of them. *)
Theorem findConfigFile_first_existing agent scope fs :
  exists found, findConfigFile agent scope fs = (Ok found, fs) /\
    match found with
    | Some p =>
        exists before rest,
          checkPaths agent scope = (before ++ p :: rest)%list /\
          is_Some (files fs !! p) /\
          forall q, In q before -> files fs !! q = None
    | None => forall q, In q (checkPaths agent scope) -> files fs !! q = None
    end.
Proof.
  unfold findConfigFile. generalize (checkPaths agent scope) as candidates.
  induction candidates as [|p rest IH]; cbn.
  - exists None. split; [reflexivity|]. intros q [].
  - unfold mbind, IO_bind, pathExists. cbn.
    destruct (bool_decide (is_Some (files fs !! p))) eqn:E.
    + apply bool_decide_eq_true in E.
      exists (Some p). split; [reflexivity|].
      exists [], rest. repeat split; [assumption|]. intros q [].
    + apply bool_decide_eq_false in E.
      assert (Hp : files fs !! p = None).
      { destruct (files fs !! p) eqn:Hf; [|reflexivity]. exfalso. apply E. eauto. }
      destruct IH as (found & Hrun & Hfound). exists found. split; [exact Hrun|].
      destruct found as [p'|].
      * destruct Hfound as (before & rest' & -> & Hsome & Hbefore).
        exists (p :: before), rest'. repeat split; [assumption|].
        intros q [<-|Hq]; [assumption|now apply Hbefore].
      * intros q [<-|Hq]; [assumption|now apply Hfound].
Qed.


(** The path [write] writes to is the first place [read] looks at. *)
Lemma checkPaths_head agent scope :
  exists rest, checkPaths agent scope = getAgentConfigPath agent scope :: rest.
Proof.
  unfold checkPaths, getAgentConfigPath, getAgentConfigPaths.
  destruct agent, scope; try destruct IS_WINDOWS; try destruct IS_MACOS; cbn; eauto.
Qed.

Lemma findConfigFile_after_write agent scope fs text log' :
  let fs' := {| files := <[getAgentConfigPath agent scope := text]> (files fs);
                log := log' |} in
  findConfigFile agent scope fs' = (Ok (Some (getAgentConfigPath agent scope)), fs').
Proof.
  intros fs'. unfold findConfigFile.
  destruct (checkPaths_head agent scope) as [rest ->]. cbn.
  unfold mbind, IO_bind, pathExists. cbn.
  rewrite lookup_insert_eq.
  rewrite bool_decide_eq_true_2 by eauto. reflexivity.
Qed.

(** Reading back what was written. *)
Lemma read_back a config scope fs fs' :
  write a config scope fs = (Ok tt, fs') ->
  JSON_parse (JSON_stringify2 config) = Some config ->
  JS.trim (JSON_stringify2 config) <> "" ->
  read a scope fs' = (Ok config, fs').
Proof.
  intros Hwrite Hparse Hblank.
  destruct (write_cases a config scope fs) as [[_ [e He]]|[Hvalid Hw]];
    [congruence|].
  rewrite Hw in Hwrite. injection Hwrite as <-.
  unfold read, mbind, IO_bind, getConfigPath.
  rewrite findConfigFile_after_write.
  unfold try_catch, readFile, mbind, IO_bind. cbn [files].
  unfold getConfigPath. rewrite lookup_insert_eq.
  destruct (JS.trim (JSON_stringify2 config)) eqn:Ht; [congruence|].
  cbn [JS.truthy_string negb]. rewrite Hparse, Hvalid. reflexivity.
Qed.

(** X16. What [write] wrote, [read] returns: after a successful write of
    a configuration whose text parses back to it, reading the same scope
    gives that configuration. *)
Theorem write_then_read a config scope fs fs' :
  write a config scope fs = (Ok tt, fs') ->
  JSON_parse (JSON_stringify2 config) = Some config ->
  JS.trim (JSON_stringify2 config) <> "" ->
  read a scope fs' = (Ok config, fs').
Proof.
  intros Hwrite Hparse Hblank.
  destruct (write_cases a config scope fs) as [[_ [e He]]|[Hvalid Hw]];
    [congruence|].
  rewrite Hw in Hwrite. injection Hwrite as <-.
  unfold read, mbind, IO_bind, getConfigPath.
  rewrite findConfigFile_after_write.
  unfold try_catch, readFile, mbind, IO_bind. cbn [files].
  unfold getConfigPath. rewrite lookup_insert_eq.
  destruct (JS.trim (JSON_stringify2 config)) eqn:Ht; [congruence|].
  cbn [JS.truthy_string negb]. rewrite Hparse, Hvalid. reflexivity.
Qed.

(** *** The Claude adapter *)

Lemma isStringArray_map l : isStringArray (JArr (map JStr l)) = true.
Proof. cbn. induction l; cbn; auto. Qed.

Lemma isStringRecord_map (l : list (string * string)) :
  isStringRecord (JObj (map (fun kv => (fst kv, JStr (snd kv))) l)) = true.
Proof. cbn. induction l; cbn; auto. Qed.

(** The transformed entry fits the schema. *)
Lemma claude_transform_schema serverId serverConfig transport :
  claudeServerConfigSchema
    (claudeTransformServerConfig serverId serverConfig transport) = true.
Proof.
  unfold claudeTransformServerConfig.
  assert (Hstdio : forall command args env,
            claudeServerConfigSchema
              (JObj [("command", JStr command); ("args", JArr (map JStr args));
                     ("env", JObj (map (fun kv => (fst kv, JStr (snd kv))) env))])
            = true).
  { intros command args env. unfold claudeServerConfigSchema, optionalKey.
    cbn [own_get String.eqb Ascii.eqb Bool.eqb].
    cbn -[isStringArray isStringRecord].
    now rewrite isStringArray_map, isStringRecord_map. }
  destruct transport, (ServerConfig.url serverConfig); try apply Hstdio.
  reflexivity.
Qed.

(** X17. Whatever description it is given, the Claude adapter's
    [transformServerConfig] produces an entry that the adapter's schema
    accepts. *)
Theorem claude_transform_fits_schema serverId serverConfig transport :
  claudeServerConfigSchema
    (claudeTransformServerConfig serverId serverConfig transport) = true.
Proof.
  unfold claudeTransformServerConfig.
  assert (Hstdio : forall command args env,
            claudeServerConfigSchema
              (JObj [("command", JStr command); ("args", JArr (map JStr args));
                     ("env", JObj (map (fun kv => (fst kv, JStr (snd kv))) env))])
            = true).
  { intros command args env. unfold claudeServerConfigSchema, optionalKey.
    cbn [own_get String.eqb Ascii.eqb Bool.eqb].
    cbn -[isStringArray isStringRecord].
    now rewrite isStringArray_map, isStringRecord_map. }
  destruct transport, (ServerConfig.url serverConfig); try apply Hstdio.
  reflexivity.
Qed.

Lemma forallb_own_set {V} (P : string * V -> bool) k v (o : list (string * V)) :
  (forall k', P (k', v) = true) ->
  forallb P o = true -> forallb P (own_set k v o) = true.
Proof.
  intros Hv. induction o as [|[k' v'] o IH]; cbn.
  - intros _. now rewrite Hv.
  - intros H. apply andb_true_iff in H as [H1 H2].
    destruct (String.eqb k' k); cbn.
    + now rewrite Hv.
    + now rewrite H1, IH.
Qed.

(** Adding a server keeps the configuration within the schema: when
    every entry of the servers read fits the Claude schema, so does the
    configuration that [addServer] builds with the transformed entry. *)
Lemma claude_addServer_keeps_schema servers serverId serverConfig transport :
  forallb (fun kv => claudeServerConfigSchema (snd kv)) servers = true ->
  ZodSchema.accepts claudeConfigSchema
    (claudeCreateConfigWithServers
       (assign servers serverId
          (claudeTransformServerConfig serverId serverConfig transport))) = true.
Proof.
  intros Hall. cbn. unfold assign.
  destruct (own_get serverId servers);
    [|destruct (String.eqb serverId "__proto__"); [exact Hall|]];
    (apply forallb_own_set; [|exact Hall]);
    intros k'; apply claude_transform_schema.
Qed.

(** The servers of a configuration that the Claude adapter read are
    objects, hence truthy. *)
Lemma claude_read_entries fs scope config :
  read ClaudeAdapter scope fs = (Ok config, fs) ->
  forall id v, own_get id (claudeExtractServers config) = Some v -> truthy v = true.
Proof.
  unfold read, findConfigFile, mbind, IO_bind.
  destruct (firstExisting_reads (checkPaths (name ClaudeAdapter) scope) fs)
    as [found ->].
  assert (Hempty : forall id v,
            own_get id (claudeExtractServers (createConfigWithServers ClaudeAdapter []))
            = Some v -> truthy v = true) by (intros id v; discriminate).
  destruct found as [configPath|]; [|now intros [= <-]].
  unfold try_catch, readFile, mbind, IO_bind, mret, IO_ret, throw.
  destruct (files fs !! configPath) as [content|]; cbn; [|now intros [= <-]].
  destruct (JS.truthy_string (JS.trim content)); cbn; [|now intros [= <-]].
  destruct (JSON_parse content) as [parsed|]; cbn; [|discriminate].
  destruct (ValidationResult.valid (claudeValidate parsed)) eqn:Hvalid; cbn;
    [|discriminate].
  intros [= <-] id v Hget.
  assert (Hschema : ZodSchema.accepts claudeConfigSchema parsed = true).
  { destruct (ZodSchema.accepts claudeConfigSchema parsed) eqn:E; [reflexivity|].
    now rewrite (claudeValidate_schema _ E) in Hvalid. }
  unfold claudeExtractServers, props_or_empty in Hget. cbn in Hschema.
  destruct parsed as [| | | | |o]; try discriminate.
  destruct (own_get "mcpServers" o) as [[| | | | |servers]|]; try discriminate.
  clear Hvalid. induction servers as [|[k w] servers IH]; [discriminate|].
  cbn in Hschema, Hget. apply andb_true_iff in Hschema as [Hw Hrest].
  destruct (String.eqb k id).
  - injection Hget as <-. destruct w; try discriminate Hw. reflexivity.
  - now apply IH.
Qed.

(** X19. After [addServer] succeeds on the Claude adapter, reading the
    scope back gives a configuration that holds the transformed entry
    under the server's identifier and every other entry as before
    ([__proto__] apart, which names no own property). *)
Theorem claude_addServer_then_read serverId serverConfig scope fs fs' current :
  read ClaudeAdapter scope fs = (Ok current, fs) ->
  addServer ClaudeAdapter serverId serverConfig scope fs = (Ok tt, fs') ->
  serverId <> "__proto__" ->
  let entry :=
    claudeTransformServerConfig serverId serverConfig
      (default stdio (ServerConfig.transport serverConfig)) in
  let newConfig :=
    claudeCreateConfigWithServers (assign (claudeExtractServers current) serverId entry) in
  JSON_parse (JSON_stringify2 newConfig) = Some newConfig ->
  JS.trim (JSON_stringify2 newConfig) <> "" ->
  read ClaudeAdapter scope fs' = (Ok newConfig, fs') /\
  own_get serverId (claudeExtractServers newConfig) = Some entry /\
  forall other, other <> serverId ->
    own_get other (claudeExtractServers newConfig)
    = own_get other (claudeExtractServers current).
Proof.
  intros Hread Hadd Hid entry newConfig Hparse Hblank.
  assert (Hwrite : write ClaudeAdapter newConfig scope fs = (Ok tt, fs')).
  { revert Hadd. unfold addServer, try_catch, mbind, IO_bind. rewrite Hread.
    cbn [extractServers ClaudeAdapter transformServerConfig createConfigWithServers].
    fold entry. fold newConfig.
    destruct (write ClaudeAdapter newConfig scope fs) as [[[]|e] fs1]; cbn;
      [tauto|discriminate]. }
  split; [exact (read_back ClaudeAdapter newConfig scope fs fs' Hwrite Hparse Hblank)|].
  change (claudeExtractServers newConfig)
    with (assign (claudeExtractServers current) serverId entry).
  split.
  - unfold assign. destruct (own_get serverId (claudeExtractServers current));
      [apply own_get_own_set_eq|].
    rewrite (proj2 (String.eqb_neq _ _) Hid). apply own_get_own_set_eq.
  - intros other Hother. now apply own_get_assign_ne.
Qed.

(** X20. After [removeServer] succeeds on the Claude adapter for a server
    that the configuration holds, reading the scope back gives a
    configuration without that server and with every other entry as
    before. *)
Theorem claude_removeServer_then_read serverId scope fs fs' current entry :
  read ClaudeAdapter scope fs = (Ok current, fs) ->
  own_get serverId (claudeExtractServers current) = Some entry ->
  removeServer ClaudeAdapter serverId scope fs = (Ok tt, fs') ->
  let newConfig :=
    claudeCreateConfigWithServers (own_delete serverId (claudeExtractServers current)) in
  JSON_parse (JSON_stringify2 newConfig) = Some newConfig ->
  JS.trim (JSON_stringify2 newConfig) <> "" ->
  read ClaudeAdapter scope fs' = (Ok newConfig, fs') /\
  own_get serverId (claudeExtractServers newConfig) = None /\
  forall other, other <> serverId ->
    own_get other (claudeExtractServers newConfig)
    = own_get other (claudeExtractServers current).
Proof.
  intros Hread Hentry Hremove newConfig Hparse Hblank.
  assert (Hwrite : write ClaudeAdapter newConfig scope fs = (Ok tt, fs')).
  { revert Hremove. unfold removeServer, try_catch, mbind, IO_bind. rewrite Hread.
    cbn [extractServers ClaudeAdapter createConfigWithServers].
    unfold prop_truthy. rewrite Hentry.
    rewrite (claude_read_entries _ _ _ Hread _ _ Hentry).
    fold newConfig.
    destruct (write ClaudeAdapter newConfig scope fs) as [[[]|e] fs1]; cbn;
      [tauto|discriminate]. }
  split; [exact (read_back ClaudeAdapter newConfig scope fs fs' Hwrite Hparse Hblank)|].
  change (claudeExtractServers newConfig)
    with (own_delete serverId (claudeExtractServers current)).
  split; [apply own_get_own_delete_eq|].
  intros other Hother. now apply own_get_own_delete_ne.
Qed.

End WithNode.

(** *** Merging, once more *)

Lemma own_get_assign_same (o : Props) k v x :
  own_get k (assign o k v) = Some x -> x = v.
Proof.
  unfold assign. destruct (own_get k o) eqn:E.
  - rewrite own_get_own_set_eq. congruence.
  - destruct (String.eqb k "__proto__").
    + rewrite E. discriminate.
    + rewrite own_get_own_set_eq. congruence.
Qed.

Lemma own_get_assign_is_Some (o : Props) k v id :
  is_Some (own_get id o) -> is_Some (own_get id (assign o k v)).
Proof.
  intros H. destruct (String.eqb_spec k id) as [->|Hne].
  - unfold assign. destruct H as [x Hx]. rewrite Hx, own_get_own_set_eq. eauto.
  - now rewrite own_get_assign_ne.
Qed.

(** X21. A merge drops nothing and invents nothing, whatever the
    overwrite flag: every identifier of the current servers is still
    there afterwards, and every entry of the merged servers is an entry of
    the current servers or of the source. *)
Theorem mergeServers_keeps_and_invents_nothing source :
  forall current overwrite id,
    (is_Some (own_get id current) ->
     is_Some (own_get id (mergeServers current source overwrite))) /\
    (forall v, own_get id (mergeServers current source overwrite) = Some v ->
       own_get id current = Some v \/ In (id, v) source).
Proof.
  induction source as [|[k w] source IH]; intros current overwrite id.
  - cbn. split; [tauto|]. intros v Hv. now left.
  - change (mergeServers current ((k, w) :: source) overwrite)
      with (mergeServers
              (if negb (prop_truthy current k) || overwrite
               then assign current k w else current) source overwrite).
    destruct (IH (if negb (prop_truthy current k) || overwrite
                  then assign current k w else current) overwrite id)
      as [Hkeep Hfrom].
    split.
    + intros Hsome. apply Hkeep.
      destruct (negb (prop_truthy current k) || overwrite); [|exact Hsome].
      now apply own_get_assign_is_Some.
    + intros v Hv. destruct (Hfrom v Hv) as [Hcur|Hin]; [|right; now right].
      destruct (negb (prop_truthy current k) || overwrite); [|now left].
      destruct (String.eqb_spec k id) as [->|Hne].
      * apply own_get_assign_same in Hcur. subst v. right. now left.
      * rewrite own_get_assign_ne in Hcur by assumption. now left.
Qed.

Section WithNode.
Context {N : Node}.

(** *** Listing and failing *)

Lemma append_associative (a b c : string) : (a ++ b) ++ c = a ++ (b ++ c).
Proof.
  induction a as [|x a IH]; [reflexivity|].
  change (String x ((a ++ b) ++ c) = String x (a ++ (b ++ c))).
  now rewrite IH.
Qed.

(** X22. [getInstalledServers] does not throw and changes nothing: it
    returns the identifiers of the servers of the configuration that
    [read] returns, and an empty list when [read] throws. *)
Theorem getInstalledServers_total a scope fs :
  exists ids, getInstalledServers a scope fs = (Ok ids, fs) /\
    match fst (read a scope fs) with
    | Ok config => ids = map fst (extractServers a config)
    | Err _ => ids = []
    end.
Proof.
  unfold getInstalledServers, try_catch, mbind, IO_bind.
  destruct (read_reads a scope fs) as [[config|e] ->]; cbn; eauto.
Qed.

(** X23. When the current configuration cannot be read (its text is not
    JSON, or it fails validation), addServer, removeServer, updateServer
    and mergeConfig throw the error of [read] behind their own prefix and
    leave the file system as it was: the file is not overwritten. *)
Theorem unreadable_configuration_is_kept a op scope fs e :
  read a scope fs = (Err e, fs) ->
  perform a op scope fs = (Err (Error (failurePrefix op ++ message e)), fs).
Proof.
  intros Hread.
  destruct op; cbn [perform failurePrefix]; unfold updateServer;
    unfold addServer, removeServer, mergeConfig, try_catch, mbind, IO_bind, throw;
    rewrite Hread; cbn; rewrite ?append_associative; reflexivity.
Qed.

End WithNode.

(** *** Checksums *)

Lemma to_int32_wraps z : exists k, to_int32 z = z + 4294967296 * k.
Proof.
  unfold to_int32. change (2 ^ 32) with 4294967296. change (2 ^ 31) with 2147483648.
  exists (- ((z + 2147483648) / 4294967296)).
  pose proof (Z.div_mod (z + 2147483648) 4294967296 ltac:(lia)). lia.
Qed.

Lemma to_int32_congruent a b k : a = b + 4294967296 * k -> to_int32 a = to_int32 b.
Proof.
  intros ->. unfold to_int32. f_equal. change (2 ^ 32) with 4294967296.
  replace (b + 4294967296 * k + 2 ^ 31) with (b + 2 ^ 31 + k * 4294967296) by ring.
  apply Z_mod_plus_full.
Qed.

Lemma to_int32_range z : - 2147483648 <= to_int32 z < 2147483648.
Proof.
  unfold to_int32. change (2 ^ 32) with 4294967296. change (2 ^ 31) with 2147483648.
  pose proof (Z.mod_pos_bound (z + 2147483648) 4294967296 ltac:(lia)). lia.
Qed.

Lemma checksumLoop_wraps content :
  forall hash, checksumLoop content (to_int32 hash) = to_int32 (polynomialHash content hash).
Proof.
  induction content as [|c r IH]; intros hash; [reflexivity|].
  cbn [checksumLoop polynomialHash]. rewrite <- IH. f_equal.
  destruct (to_int32_wraps hash) as [k1 E1].
  destruct (to_int32_wraps (to_int32 hash * 32)) as [k2 E2].
  apply (to_int32_congruent _ _ (32 * k1 + k2 - k1)).
  rewrite E2, E1. ring.
Qed.

Lemma digit_value_hexDigit d :
  0 <= d < 16 -> JS.digit_value (hexDigit d) = Some d.
Proof.
  intros Hd.
  assert (d = 0 \/ d = 1 \/ d = 2 \/ d = 3 \/ d = 4 \/ d = 5 \/ d = 6 \/ d = 7 \/
          d = 8 \/ d = 9 \/ d = 10 \/ d = 11 \/ d = 12 \/ d = 13 \/ d = 14 \/ d = 15)
    as Hcases by lia.
  repeat (destruct Hcases as [->|Hcases]; [reflexivity|]). now subst d.
Qed.

Lemma parse_digits_toHex fuel :
  forall n acc, 0 <= n < 16 ^ Z.of_nat fuel -> (0 < fuel)%nat ->
    JS.parse_digits 16 (toHex fuel n acc) None = JS.parse_digits 16 acc (Some n).
Proof.
  induction fuel as [|fuel IH]; intros n acc Hn Hfuel; [lia|].
  - assert (Hdigit : 0 <= n mod 16 < 16) by (apply Z.mod_pos_bound; lia).
    pose proof (Z.div_mod n 16 ltac:(lia)) as Hdiv.
    assert (Hstep : forall a,
              JS.parse_digits 16 (String (hexDigit (n mod 16)) acc) a =
              JS.parse_digits 16 acc
                (Some (match a with Some a => a * 16 + n mod 16 | None => n mod 16 end))).
    { intros a. cbn [JS.parse_digits]. rewrite digit_value_hexDigit by exact Hdigit.
      destruct (Z.ltb_spec (n mod 16) 16); [reflexivity|lia]. }
    cbn [toHex]. destruct (Z.eqb_spec (n / 16) 0) as [Hz|Hnz].
    + rewrite Hstep. do 2 f_equal. lia.
    + assert (Hq : 0 <= n / 16 < 16 ^ Z.of_nat fuel).
      { split; [apply Z.div_pos; lia|].
        apply Z.div_lt_upper_bound; [lia|].
        rewrite Nat2Z.inj_succ, Z.pow_succ_r in Hn by lia. lia. }
      assert (0 < fuel)%nat.
      { destruct fuel; [|lia]. change (16 ^ Z.of_nat 0) with 1 in Hq. lia. }
      rewrite IH by assumption. rewrite Hstep. do 2 f_equal. lia.
Qed.

(** X24. The checksum of a text is the base-16 numeral of the absolute
    value of its base-31 polynomial hash wrapped into the signed 32-bit
    range: read back as a hexadecimal number it gives that value. *)
Theorem calculateChecksum_reads_back content :
  JS.parse_digits 16 (calculateChecksum content) None =
  Some (Z.abs (to_int32 (polynomialHash content 0))).
Proof.
  unfold calculateChecksum.
  change (checksumLoop content 0) with (checksumLoop content (to_int32 0)).
  rewrite checksumLoop_wraps.
  pose proof (to_int32_range (polynomialHash content 0)) as Hrange.
  rewrite parse_digits_toHex; [reflexivity| |lia].
  change (16 ^ Z.of_nat 8) with 4294967296. lia.
Qed.

(** *** File names *)

Lemma allUnits_tail P c r : allUnits P (String c r) = true -> allUnits P r = true.
Proof. cbn. now intros [_ ?]%andb_prop. Qed.

Lemma allUnits_dropLast P s : allUnits P s = true -> allUnits P (JS.dropLast s) = true.
Proof.
  induction s as [|c r IH]; [easy|]. destruct r as [|c' r']; [easy|].
  intros [Hc Hr]%andb_prop.
  change (allUnits P (String c (JS.dropLast (String c' r'))) = true).
  cbn [allUnits]. rewrite Hc. now apply IH.
Qed.

Lemma allUnits_collapseUnderscores P s :
  forall inRun, allUnits P s = true -> allUnits P (collapseUnderscores inRun s) = true.
Proof.
  induction s as [|c r IH]; intros inRun; [easy|].
  intros [Hc Hr]%andb_prop. cbn [collapseUnderscores].
  destruct (Ascii.eqb_spec c underscore) as [->|_].
  - destruct inRun; [now apply IH|]. cbn [allUnits]. rewrite Hc. now apply IH.
  - cbn [allUnits]. rewrite Hc. now apply IH.
Qed.

Lemma safeUnit_collapseWhiteSpace s :
  forall inRun, allUnits (fun c => negb (unsafeInFilename c)) s = true ->
    allUnits safeUnit (collapseWhiteSpace inRun s) = true.
Proof.
  induction s as [|c r IH]; intros inRun; [easy|].
  intros [Hc Hr]%andb_prop. cbn [collapseWhiteSpace].
  destruct (JS.isWhiteSpace c) eqn:Hspace.
  - destruct inRun; [now apply IH|].
    change (allUnits safeUnit (collapseWhiteSpace true r) = true). now apply IH.
  - cbn [allUnits]. unfold safeUnit at 1. rewrite Hc, Hspace. now apply IH.
Qed.

Lemma mapUnits_unsafe s :
  allUnits (fun c => negb (unsafeInFilename c))
    (mapUnits (fun c => if unsafeInFilename c then underscore else c) s) = true.
Proof.
  induction s as [|c r IH]; [easy|]. cbn [mapUnits allUnits]. rewrite IH.
  destruct (unsafeInFilename c) eqn:E; [reflexivity|]. now rewrite E.
Qed.

(** X25. A name that [createSafeFilename] returns holds none of the
    characters it replaces: no angle bracket, colon, double quote, slash,
    backslash, bar, question mark or star, and no white space. *)
Theorem createSafeFilename_safe input :
  allUnits safeUnit (createSafeFilename input) = true.
Proof.
  unfold createSafeFilename, stripEdgeUnderscores.
  set (s := collapseUnderscores false _).
  assert (Hs : allUnits safeUnit s = true).
  { apply allUnits_collapseUnderscores, safeUnit_collapseWhiteSpace, mapUnits_unsafe. }
  clearbody s.
  assert (Hhead : allUnits safeUnit
            match s with
            | String c r => if Ascii.eqb c underscore then r else s
            | EmptyString => s
            end = true).
  { destruct s as [|c r]; [easy|].
    destruct (Ascii.eqb c underscore); [now apply allUnits_tail in Hs|exact Hs]. }
  destruct (JS.endsWith _ "_"); [now apply allUnits_dropLast|exact Hhead].
Qed.

(** *** Restoring a backup *)

Section WithNode.
Context {N : Node}.

Lemma loadAgentConfig_reads agent scope fs :
  exists outcome, loadAgentConfig agent scope fs = (outcome, fs).
Proof.
  unfold loadAgentConfig, findConfigFile, mbind, IO_bind.
  destruct (firstExisting_reads (checkPaths agent scope) fs) as [found ->].
  destruct found as [configPath|]; [|cbn; eauto].
  unfold try_catch, readFile, mbind, IO_bind, mret, IO_ret, throw.
  destruct (files fs !! configPath); [|eauto].
  destruct (JSON_parse _); eauto.
Qed.

Lemma detectChanges_reads agent scope config fs :
  exists changed, detectChanges agent scope config fs = (Ok changed, fs).
Proof.
  unfold detectChanges, try_catch, mbind, IO_bind.
  destruct (loadAgentConfig_reads agent scope fs) as [[current|e] ->]; cbn; eauto.
Qed.





Lemma agentOfJson_agentName agent :
  agentOfJson (Some (JStr (agentName agent))) = Some agent.
Proof. now destruct agent. Qed.

Lemma scopeOfJson_scopeName scope :
  scopeOfJson (Some (JStr (scopeName scope))) = scope.
Proof. now destruct scope. Qed.

(** A snapshot whose document has both parts, passes the integrity check
    and names a known agent is restored to that agent's primary file. *)
Lemma restoreBackup_restores backupId fs backupContent props config agent scope :
  files fs !! backupFileOf backupId = Some backupContent ->
  JSON_parse backupContent = Some (JObj [("metadata", JObj props); ("config", config)]) ->
  storedChecksumIs (JObj props) (calculateChecksum (JSON_stringify config)) = true ->
  agentOfJson (own_get "agent" props) = Some agent ->
  scopeOfJson (own_get "scope" props) = scope ->
  exists restored fs2,
    restoreBackup backupId fs = (Ok restored, fs2) /\
    RestoreResult.success restored = true /\
    RestoreResult.configPath restored = own_get "configPath" props /\
    files fs2 = <[getAgentConfigPath agent scope := JSON_stringify2 config]> (files fs).
Proof.
  intros Hfile Hparse Hsum Hagent Hscope.
  unfold restoreBackup, try_catch, mbind, IO_bind, pathExists, readFile, throw.
  cbn beta iota. rewrite Hfile.
  rewrite bool_decide_eq_true_2 by eauto. cbn [negb]. cbn beta iota.
  rewrite Hfile. cbn beta iota. rewrite Hparse. cbn beta iota.
  change (property (JObj [("metadata", JObj props); ("config", config)]) "config")
    with (Some config).
  change (property (JObj [("metadata", JObj props); ("config", config)]) "metadata")
    with (Some (JObj props)).
  cbn beta iota. rewrite Hsum. cbn [negb].
  change (property (JObj props) "agent") with (own_get "agent" props).
  change (property (JObj props) "scope") with (own_get "scope" props).
  change (property (JObj props) "configPath") with (own_get "configPath" props).
  rewrite Hagent, Hscope. cbn beta iota.
  destruct (detectChanges_reads agent scope config fs) as [changed ->].
  unfold saveAgentConfig, try_catch, mbind, IO_bind, ensureDir, writeFile.
  cbn. eauto 10.
Qed.

(** X27. A snapshot restores what it saved. When an agent's configuration
    is found at a path and loads, and the platform's parser reads the backup
    document back as it was written, [createBackup] succeeds and
    [restoreBackup] of the identifier it returns succeeds as well: it passes
    the integrity check, reports the path the configuration was found at,
    and leaves the saved configuration, indented, in the agent's primary
    configuration file (the path of [getAgentConfigPath], whichever of the
    candidate paths it was read from). *)
Theorem createBackup_then_restoreBackup agent scope fs configPath config :
  findConfigFile agent scope fs = (Ok (Some configPath), fs) ->
  loadAgentConfig agent scope fs = (Ok config, fs) ->
  (let data := backupData
                 (backupMetadata (backupIdOf agent scope) agent scope configPath config)
                 config in
   JSON_parse (JSON_stringify2 data) = Some data) ->
  exists backup fs1 restored fs2,
    createBackup agent scope fs = (Ok backup, fs1) /\
    BackupResult.success backup = true /\
    restoreBackup (BackupResult.backupId backup) fs1 = (Ok restored, fs2) /\
    RestoreResult.success restored = true /\
    RestoreResult.configPath restored = Some (JStr configPath) /\
    files fs2 !! getAgentConfigPath agent scope = Some (JSON_stringify2 config).
Proof.
  intros Hfind Hload Hparse. cbv zeta in Hparse.
  assert (Hcreate : exists backup fs1,
            createBackup agent scope fs = (Ok backup, fs1) /\
            BackupResult.success backup = true /\
            BackupResult.backupId backup = backupIdOf agent scope /\
            files fs1 !! backupFileOf (backupIdOf agent scope) =
              Some (JSON_stringify2
                      (backupData
                         (backupMetadata (backupIdOf agent scope) agent scope
                            configPath config) config))).
  { unfold createBackup, try_catch, mbind, IO_bind. rewrite Hfind, Hload.
    do 2 eexists. repeat (split; [reflexivity|]).
    cbn [files]. apply lookup_insert_eq. }
  destruct Hcreate as (backup & fs1 & Hcreate & Hok & Hid & Hfile).
  destruct (restoreBackup_restores (backupIdOf agent scope) fs1 _ _ config agent scope
              Hfile Hparse)
    as (restored & fs2 & Hrestore & Hsuccess & Hpath & Hfiles).
  - change (String.eqb (calculateChecksum (JSON_stringify config))
              (calculateChecksum (JSON_stringify config)) = true).
    apply String.eqb_refl.
  - apply agentOfJson_agentName.
  - apply scopeOfJson_scopeName.
  - exists backup, fs1, restored, fs2. rewrite Hid.
    repeat (split; [assumption|]).
    rewrite Hfiles. apply lookup_insert_eq.
Qed.

End WithNode.

(** *** What [read] returns, and when [addServer] succeeds *)

Section WithNode.
Context {N : Node}.

(** A configuration that [read] returns is the empty one or a valid one. *)
Lemma read_accepted a scope fs config fs' :
  read a scope fs = (Ok config, fs') ->
  config = createConfigWithServers a [] \/
  ValidationResult.valid (validate a config) = true.
Proof.
  unfold read, findConfigFile, mbind, IO_bind.
  destruct (firstExisting_reads (checkPaths (name a) scope) fs) as [found ->].
  destruct found as [configPath|]; [|intros [= <- _]; now left].
  unfold try_catch, readFile, mbind, IO_bind, mret, IO_ret, throw.
  destruct (files fs !! configPath) as [content|]; cbn; [|intros [= <- _]; now left].
  destruct (JS.truthy_string (JS.trim content)); cbn; [|intros [= <- _]; now left].
  destruct (JSON_parse content) as [parsed|]; cbn; [|discriminate].
  destruct (ValidationResult.valid (validate a parsed)) eqn:Hvalid; cbn; [|discriminate].
  intros [= <- _]. now right.
Qed.

(** X18. [read] returns nothing it has not checked: the configuration it
    returns is the empty one that [createConfigWithServers] builds, or the
    parsed content of a file at one of the places [findConfigFile] looks
    at, and then [validate] accepts it. *)
Theorem read_returns_validated a scope fs config fs' :
  read a scope fs = (Ok config, fs') ->
  config = createConfigWithServers a [] \/
  (ValidationResult.valid (validate a config) = true /\
   exists configPath content,
     In configPath (checkPaths (name a) scope) /\
     files fs !! configPath = Some content /\
     JSON_parse content = Some config).
Proof.
  unfold read. unfold mbind at 1. unfold IO_bind at 1. unfold findConfigFile.
  destruct (firstExisting_reads (checkPaths (name a) scope) fs) as [found Hfound].
  rewrite Hfound.
  destruct found as [configPath|]; [|intros [= <- _]; now left].
  apply firstExisting_some in Hfound as [Hpath _].
  unfold try_catch, readFile, mbind, IO_bind, mret, IO_ret, throw.
  destruct (files fs !! configPath) as [content|] eqn:Hfile; cbn;
    [|intros [= <- _]; now left].
  destruct (JS.truthy_string (JS.trim content)); cbn; [|intros [= <- _]; now left].
  destruct (JSON_parse content) as [parsed|] eqn:Hparse; cbn; [|discriminate].
  destruct (ValidationResult.valid (validate a parsed)) eqn:Hvalid; cbn; [|discriminate].
  intros [= <- _]. right. split; [exact Hvalid|].
  exists configPath, content. now repeat split.
Qed.

Lemma flat_map_nil {A B} (f : A -> list B) l :
  flat_map f l = [] <-> forall x, In x l -> f x = [].
Proof.
  induction l as [|x l IH]; cbn; [easy|]. split.
  - intros [Hx Hl]%app_eq_nil y [<-|Hy]; [exact Hx|]. now apply IH.
  - intros H. rewrite (H x) by now left. apply IH. intros y Hy. apply H. now right.
Qed.

(** The Claude adapter accepts a configuration exactly when the schema
    does and no server has an error; warnings do not count. *)
Lemma claudeValidate_valid config :
  ValidationResult.valid (claudeValidate config) = true <->
  ZodSchema.accepts claudeConfigSchema config = true /\
  forall id v, In (id, v) (claudeExtractServers config) -> validateClaudeServer id v = [].
Proof.
  unfold claudeValidate, BaseAgentAdapter_validate.
  destruct (ZodSchema.accepts claudeConfigSchema config);
    cbn [negb ValidationResult.valid ValidationResult.errors app];
    [|split; [discriminate|now intros [? _]]].
  set (errors := flat_map _ _).
  assert (Herrors : errors = [] <->
            forall id v, In (id, v) (claudeExtractServers config) ->
                         validateClaudeServer id v = []).
  { unfold errors. rewrite flat_map_nil. split.
    - intros H id v Hin. specialize (H (id, v) Hin). cbn in H.
      now apply map_eq_nil in H.
    - intros H [id v] Hin. cbn. now rewrite (H id v Hin). }
  clearbody errors. destruct errors as [|e errors].
  - split; [intros _; split; [reflexivity|now apply Herrors]|reflexivity].
  - change (0 <? Z.of_nat (length (e :: errors))) with true.
    split; [discriminate|]. intros [_ H]. now apply Herrors in H.
Qed.

Lemma In_own_set {V} k (v : V) o kv :
  In kv (own_set k v o) -> In kv o \/ kv = (k, v).
Proof.
  induction o as [|[k' v'] o IH]; cbn.
  - intros [<-|[]]. now right.
  - destruct (String.eqb_spec k' k) as [->|_]; cbn.
    + intros [<-|H]; [now right|left; now right].
    + intros [<-|H]; [left; now left|]. destruct (IH H); [left; now right|now right].
Qed.

Lemma own_set_In {V} k (v : V) o : In (k, v) (own_set k v o).
Proof.
  induction o as [|[k' v'] o IH]; cbn; [now left|].
  destruct (String.eqb_spec k' k) as [->|_]; cbn; [now left|now right].
Qed.

Lemma In_assign o k v kv : In kv (assign o k v) -> In kv o \/ kv = (k, v).
Proof.
  unfold assign. destruct (own_get k o); [apply In_own_set|].
  destruct (String.eqb k "__proto__"); [now left|apply In_own_set].
Qed.

Lemma assign_In o k v : k <> "__proto__" -> In (k, v) (assign o k v).
Proof.
  intros Hk. unfold assign. destruct (own_get k o); [apply own_set_In|].
  rewrite (proj2 (String.eqb_neq _ _) Hk). apply own_set_In.
Qed.

Lemma assign_keeps_schema servers serverId entry :
  claudeServerConfigSchema entry = true ->
  forallb (fun kv => claudeServerConfigSchema (snd kv)) servers = true ->
  forallb (fun kv => claudeServerConfigSchema (snd kv)) (assign servers serverId entry)
  = true.
Proof.
  intros Hentry Hall. unfold assign.
  destruct (own_get serverId servers);
    [|destruct (String.eqb serverId "__proto__"); [exact Hall|]];
    (apply forallb_own_set; [|exact Hall]); intros k'; exact Hentry.
Qed.

(** The servers of a configuration the Claude adapter read fit the schema
    and have no error. *)
Lemma claude_read_checked scope fs current :
  read ClaudeAdapter scope fs = (Ok current, fs) ->
  forallb (fun kv => claudeServerConfigSchema (snd kv)) (claudeExtractServers current)
  = true /\
  forall id v, In (id, v) (claudeExtractServers current) -> validateClaudeServer id v = [].
Proof.
  intros Hread. destruct (read_accepted _ _ _ _ _ Hread) as [->|Hvalid].
  - split; [reflexivity|]. intros id v [].
  - apply claudeValidate_valid in Hvalid as [Hschema Hservers].
    split; [|exact Hservers].
    unfold claudeExtractServers, props_or_empty. cbn in Hschema.
    destruct current as [| | | | |o]; try discriminate.
    destruct (own_get "mcpServers" o) as [[| | | | |servers]|]; try discriminate.
    exact Hschema.
Qed.

(** X28. On the Claude adapter [addServer] succeeds exactly when the entry
    it builds has no error: after a successful [read], an entry that
    [validateClaudeServer] accepts is written, with the servers read, to the
    configuration file of the scope; an entry with an error (a blank
    command, an invalid URL) makes [addServer] throw and leaves the file
    system as it was. *)
Theorem claude_addServer_succeeds_iff serverId serverConfig scope fs current :
  read ClaudeAdapter scope fs = (Ok current, fs) ->
  serverId <> "__proto__" ->
  let entry :=
    claudeTransformServerConfig serverId serverConfig
      (default stdio (ServerConfig.transport serverConfig)) in
  let newConfig :=
    claudeCreateConfigWithServers (assign (claudeExtractServers current) serverId entry) in
  match validateClaudeServer serverId entry with
  | [] =>
      exists fs',
        addServer ClaudeAdapter serverId serverConfig scope fs = (Ok tt, fs') /\
        files fs' !! getConfigPath ClaudeAdapter scope = Some (JSON_stringify2 newConfig)
  | _ :: _ =>
      exists e, addServer ClaudeAdapter serverId serverConfig scope fs = (Err e, fs)
  end.
Proof.
  intros Hread Hid entry newConfig.
  destruct (claude_read_checked scope fs current Hread) as [Hschema Hservers].
  unfold addServer, try_catch, mbind, IO_bind. rewrite Hread.
  cbn [extractServers ClaudeAdapter transformServerConfig createConfigWithServers].
  fold entry. fold newConfig.
  destruct (write_cases ClaudeAdapter newConfig scope fs)
    as [[Hvalid [e Hwrite]]|[Hvalid Hwrite]]; rewrite Hwrite; cbn [validate ClaudeAdapter] in Hvalid.
  - destruct (validateClaudeServer serverId entry) eqn:Hentry; [|cbn; eauto].
    exfalso. apply not_true_iff_false in Hvalid. apply Hvalid.
    apply claudeValidate_valid. split.
    + apply (assign_keeps_schema _ _ _ (claude_transform_schema _ _ _) Hschema).
    + intros id v [Hin|[= -> ->]]%In_assign; [now apply Hservers|exact Hentry].
  - apply claudeValidate_valid in Hvalid as [_ Hall].
    rewrite (Hall serverId entry (assign_In _ _ _ Hid)).
    eexists. split; [reflexivity|]. cbn [files]. apply lookup_insert_eq.
Qed.

End WithNode.

(** *** Instances *)

(** The configuration with one server written to an empty disk. *)
Lemma write_then_read_witness :
  let config := claudeCreateConfigWithServers [("github", JObj [("command", JStr "npx")])] in
  let N := Example.linux [config] in
  let fs' := snd (write ClaudeAdapter config user Example.emptyDisk) in
  read ClaudeAdapter user fs' = (Ok config, fs').
Proof.
  intros config N fs'.
  apply (@write_then_read N ClaudeAdapter config user Example.emptyDisk fs').
  - vm_compute. reflexivity.
  - vm_compute. reflexivity.
  - vm_compute. discriminate.
Defined.

(** A first server added on an empty disk. *)
Lemma claude_addServer_then_read_witness :
  let entry := claudeTransformServerConfig "github" (Example.stdioServer "npx") stdio in
  let newConfig := claudeCreateConfigWithServers [("github", entry)] in
  let N := Example.linux [newConfig] in
  let fs' := snd (addServer ClaudeAdapter "github" (Example.stdioServer "npx") user
                    Example.emptyDisk) in
  read ClaudeAdapter user fs' = (Ok newConfig, fs') /\
  own_get "github" (claudeExtractServers newConfig) = Some entry.
Proof.
  intros entry newConfig N fs'.
  destruct (@claude_addServer_then_read N "github" (Example.stdioServer "npx") user
              Example.emptyDisk fs' (claudeCreateConfigWithServers []))
    as (Hread & Hentry & _).
  - vm_compute. reflexivity.
  - vm_compute. reflexivity.
  - discriminate.
  - vm_compute. reflexivity.
  - vm_compute. discriminate.
  - split; [exact Hread|exact Hentry].
Defined.

(** The only server of a configuration removed. *)
Lemma claude_removeServer_then_read_witness :
  let entry := JObj [("command", JStr "npx")] in
  let current := claudeCreateConfigWithServers [("github", entry)] in
  let newConfig := claudeCreateConfigWithServers [] in
  let N := Example.linux [current; newConfig] in
  let fs := {| files := {[ "/home/dev/.claude/settings.json" := JSON_stringify current ]};
               log := [] |} in
  let fs' := snd (removeServer ClaudeAdapter "github" user fs) in
  read ClaudeAdapter user fs' = (Ok newConfig, fs') /\
  own_get "github" (claudeExtractServers newConfig) = None.
Proof.
  intros entry current newConfig N fs fs'.
  destruct (@claude_removeServer_then_read N "github" user fs fs' current entry)
    as (Hread & Hgone & _).
  - vm_compute. reflexivity.
  - vm_compute. reflexivity.
  - vm_compute. reflexivity.
  - vm_compute. reflexivity.
  - vm_compute. discriminate.
  - split; [exact Hread|exact Hgone].
Defined.

(** Merging a source with one new and one known server, without overwrite. *)
Lemma mergeServers_keeps_and_invents_nothing_witness :
  let current := [("github", JObj [("command", JStr "npx")])] in
  let source := [("github", JObj [("command", JStr "uvx")]);
                 ("mysql", JObj [("command", JStr "uvx")])] in
  is_Some (own_get "github" (mergeServers current source false)).
Proof.
  intros current source.
  apply (proj1 (mergeServers_keeps_and_invents_nothing source current false "github")).
  vm_compute. eauto.
Defined.

Lemma mergeServers_precedence_witness :
  let current := [("github", JObj [("command", JStr "npx")])] in
  let source := [("github", JObj [("command", JStr "uvx")]);
                 ("mysql", JObj [("command", JStr "uvx")])] in
  own_get "github" (mergeServers current source false)
    = Some (JObj [("command", JStr "npx")]) /\
  own_get "github" (mergeServers current source true)
    = Some (JObj [("command", JStr "uvx")]).
Proof.
  intros current source.
  assert (Hkeys : NoDup (map fst source)).
  { repeat constructor; cbn; rewrite ?list_elem_of_In; cbn; intuition discriminate. }
  assert (Htruthy : forall c, own_get "github" current = Some c -> truthy c = true).
  { intros c [= <-]. reflexivity. }
  split.
  - exact (mergeServers_precedence source current false "github" _
             Hkeys eq_refl eq_refl Htruthy).
  - exact (mergeServers_precedence source current true "github" _
             Hkeys eq_refl eq_refl Htruthy).
Defined.

(** Removing a server that an empty configuration does not hold. *)
Lemma removeServer_absent_witness :
  let N := Example.linux [] in
  removeServer ClaudeAdapter "github" user Example.emptyDisk = (Ok tt, Example.emptyDisk).
Proof.
  intros N.
  apply (@removeServer_absent N ClaudeAdapter "github" user Example.emptyDisk
           (claudeCreateConfigWithServers [])).
  - vm_compute. reflexivity.
  - reflexivity.
  - reflexivity.
Defined.

(** A configuration file that is not JSON. *)
Lemma unreadable_configuration_is_kept_witness :
  let N := Example.linux [] in
  let disk := {| files := {[ "/home/dev/.claude/settings.json" := "{not json" ]};
                 log := [] |} in
  perform ClaudeAdapter (OpRemoveServer "github") user disk
    = (Err (Error ("Failed to remove server github: " ++
                   "Failed to read configuration: Unexpected token in JSON")), disk).
Proof.
  intros N disk.
  apply (@unreadable_configuration_is_kept N ClaudeAdapter (OpRemoveServer "github")
           user disk (Error "Failed to read configuration: Unexpected token in JSON")).
  vm_compute. reflexivity.
Defined.


(** A Claude configuration with one server, backed up and restored. *)
Lemma createBackup_then_restoreBackup_witness :
  let config := claudeCreateConfigWithServers [("github", JObj [("command", JStr "npx")])] in
  let data :=
    @backupData
      (@backupMetadata (Example.linux []) (@backupIdOf (Example.linux []) claude user)
         claude user "/home/dev/.claude/settings.json" config)
      config in
  let N := Example.linux [config; data] in
  let disk := {| files := {[ "/home/dev/.claude/settings.json" := JSON_stringify config ]};
                 log := [] |} in
  exists backup fs1 restored fs2,
    createBackup claude user disk = (Ok backup, fs1) /\
    BackupResult.success backup = true /\
    restoreBackup (BackupResult.backupId backup) fs1 = (Ok restored, fs2) /\
    RestoreResult.success restored = true /\
    RestoreResult.configPath restored = Some (JStr "/home/dev/.claude/settings.json") /\
    files fs2 !! getAgentConfigPath claude user = Some (JSON_stringify2 config).
Proof.
  intros config data N disk.
  apply (@createBackup_then_restoreBackup N claude user disk
           "/home/dev/.claude/settings.json" config).
  - vm_compute. reflexivity.
  - vm_compute. reflexivity.
  - vm_compute. reflexivity.
Defined.

(** A configuration file with one server, read. *)
Lemma read_returns_validated_witness :
  let config := claudeCreateConfigWithServers [("github", JObj [("command", JStr "npx")])] in
  let N := Example.linux [config] in
  let disk := {| files := {[ "/home/dev/.claude/settings.json" := JSON_stringify config ]};
                 log := [] |} in
  config = createConfigWithServers ClaudeAdapter [] \/
  (ValidationResult.valid (validate ClaudeAdapter config) = true /\
   exists configPath content,
     In configPath (checkPaths (name ClaudeAdapter) user) /\
     files disk !! configPath = Some content /\
     JSON_parse content = Some config).
Proof.
  intros config N disk.
  apply (@read_returns_validated N ClaudeAdapter user disk config disk).
  vm_compute. reflexivity.
Defined.

(** A server with a command, added on an empty disk. *)
Lemma claude_addServer_succeeds_iff_witness :
  let N := Example.linux [] in
  let entry := claudeTransformServerConfig "github" (Example.stdioServer "npx") stdio in
  exists fs',
    addServer ClaudeAdapter "github" (Example.stdioServer "npx") user Example.emptyDisk
      = (Ok tt, fs') /\
    files fs' !! getConfigPath ClaudeAdapter user
      = Some (JSON_stringify2 (claudeCreateConfigWithServers [("github", entry)])).
Proof.
  intros N entry.
  apply (@claude_addServer_succeeds_iff N "github" (Example.stdioServer "npx") user
           Example.emptyDisk (claudeCreateConfigWithServers [])).
  - vm_compute. reflexivity.
  - discriminate.
Defined.

End AdapterCoverage.
